(** * engine.io-parser (lib/browser.js): packet and payload codec

    A shallow embedding of [lib/browser.js] and of the fragment of the
    JavaScript runtime it relies on, followed by the properties of the
    codec.

    Conventions of the embedding.
    - A JavaScript string is a [string]: a sequence of code units, here
      restricted to the range 0..255.  [charAt], [substr], [substring] and
      [length] work on code units, as they do in JavaScript.
    - A JavaScript number is an IEEE 754 binary64 value, a [spec_float]
      with precision 53 and maximal exponent 1024.  Indices and lengths of
      strings are natural numbers.
    - An exception is a value of [completion]; [try]/[catch] is a match.
    - A callback is a function; the callback of [decodePayload], which the
      caller owns and which may keep state, is a state transformer. *)

From Stdlib Require Import Bool Arith ZArith NArith List Ascii String Lia.
From Stdlib Require Import DecimalString DecimalNat SpecFloat.
Import ListNotations.

Open Scope string_scope.

(** ** The JavaScript runtime, as far as the codec uses it *)

Module JS.

(** *** Completions *)

Inductive exn : Type :=
| TypeError (msg : string)
| Error (msg : string).

Inductive completion (A : Type) : Type :=
| Normal (a : A)
| Throw (e : exn).

Arguments Normal {A} a.
Arguments Throw {A} e.

Definition bind {A B : Type} (c : completion A) (k : A -> completion B)
  : completion B :=
  match c with
  | Normal a => k a
  | Throw e => Throw e
  end.

(** *** Strings *)

(** [s.charAt(i)]: the one-unit string at [i], or the empty string. *)
Definition charAt (s : string) (i : nat) : string :=
  match String.get i s with
  | Some c => String c EmptyString
  | None => EmptyString
  end.

(** [s.substring(start)], for a non-negative integer [start]. *)
Definition substring_from (s : string) (start : nat) : string :=
  String.substring start (String.length s - start) s.

(** [String(n)] for a non-negative integer [n]. *)
Definition string_of_nat (n : nat) : string :=
  NilEmpty.string_of_uint (Nat.to_uint n).

(** *** Numbers *)

Definition number : Type := spec_float.

Definition prec : Z := 53.
Definition emax : Z := 1024.

Definition NaN : number := S754_nan.

(** The number of an integer, rounded to nearest even when it does not
    fit the 53 bits. *)
Definition number_of_Z (z : Z) : number := binary_normalize prec emax z 0 false.
Definition number_of_nat (n : nat) : number := number_of_Z (Z.of_nat n).

(** [x == y] on two numbers: NaN equals nothing, the two zeros are equal. *)
Definition num_eq (x y : number) : bool := SFeqb x y.

Definition isNaN (x : number) : bool :=
  match x with S754_nan => true | _ => false end.

(** The integer part of a finite number that is not negative, and 0 for
    the other numbers. *)
Definition integer_part (x : number) : nat :=
  match x with
  | S754_finite false m e =>
      Z.to_nat match e with
               | Z0 => Zpos m
               | Zpos p => Z.shiftl (Zpos m) (Zpos p)
               | Zneg p => Z.shiftr (Zpos m) (Zpos p)
               end
  | _ => 0
  end.

(** ToIntegerOrInfinity, cut to what a length inside a string of [bound]
    units can be: NaN and the negative numbers give 0, and a number above
    [bound], infinity with them, gives [bound]. *)
Definition to_index (bound : nat) (x : number) : nat :=
  match x with
  | S754_infinity false => bound
  | _ => Nat.min bound (integer_part x)
  end.

(** [i + x] for an index [i] and a number [x] that is a non-negative
    integer; integers below 2^53 add without rounding. *)
Definition index_plus (i : nat) (x : number) : nat := i + integer_part x.

(** [s.substr(start, len)] for a non-negative integer [start] and any
    number [len]: at most [len] units from [start], fewer when the string
    ends before. *)
Definition substr (s : string) (start : nat) (len : number) : string :=
  String.substring start (to_index (String.length s) len) s.

(** *** [Number(s)]: the StringNumericLiteral grammar *)

(** StrWhiteSpaceChar, for the code units below 256: TAB, LF, VT, FF, CR,
    SP and NBSP. *)
Definition is_white_space (c : ascii) : bool :=
  let n := nat_of_ascii c in
  (((9 <=? n) && (n <=? 13)) || (n =? 32) || (n =? 160))%nat.

Fixpoint trim_start (s : string) : string :=
  match s with
  | String c s' => if is_white_space c then trim_start s' else s
  | EmptyString => EmptyString
  end.

Fixpoint trim_end (s : string) : string :=
  match s with
  | String c s' =>
      match trim_end s' with
      | EmptyString => if is_white_space c then EmptyString else String c EmptyString
      | t => String c t
      end
  | EmptyString => EmptyString
  end.

Definition trim (s : string) : string := trim_end (trim_start s).

(** The value of a digit in a radix of at most 16. *)
Definition digit_value (radix : N) (c : ascii) : option N :=
  let n := N_of_ascii c in
  let v :=
    (if (48 <=? n) && (n <=? 57) then Some (n - 48)
     else if (97 <=? n) && (n <=? 102) then Some (n - 87)
     else if (65 <=? n) && (n <=? 70) then Some (n - 55)
     else None)%N in
  match v with
  | Some d => if (d <? radix)%N then Some d else None
  | None => None
  end.

(** Reads the longest run of digits at the head of [s]: their value on
    top of [acc], how many they are, and what follows them. *)
Fixpoint read_digits (radix : N) (s : string) (acc : N) (count : nat)
  : N * nat * string :=
  match s with
  | String c s' =>
      match digit_value radix c with
      | Some d => read_digits radix s' (acc * radix + d)%N (S count)
      | None => (acc, count, s)
      end
  | EmptyString => (acc, count, s)
  end.

(** A run of one digit at least that is the whole of [s]. *)
Definition all_digits (radix : N) (s : string) : option N :=
  match read_digits radix s 0%N 0 with
  | (v, S _, EmptyString) => Some v
  | _ => None
  end.

(** ExponentPart, optional: [e] or [E], a sign, and digits to the end. *)
Definition exponent_part (s : string) : option Z :=
  match s with
  | EmptyString => Some 0%Z
  | String c s' =>
      if Ascii.eqb c "e" || Ascii.eqb c "E" then
        match s' with
        | String "+" d => option_map Z.of_N (all_digits 10 d)
        | String "-" d => option_map (fun v => Z.opp (Z.of_N v)) (all_digits 10 d)
        | d => option_map Z.of_N (all_digits 10 d)
        end
      else None
  end.

(** The number nearest to [m * 10 ^ e], with the sign [neg]. *)
Definition decimal_to_number (neg : bool) (m : N) (e : Z) : number :=
  match m with
  | N0 => S754_zero neg
  | Npos p =>
      match e with
      | Zneg q =>
          SFdiv prec emax (S754_finite neg p 0) (S754_finite false (Pos.pow 10 q) 0)
      | _ => binary_normalize prec emax
               (if neg then Z.opp (Zpos p * 10 ^ e) else Zpos p * 10 ^ e)%Z 0 false
      end
  end.

(** StrUnsignedDecimalLiteral: [Infinity], or digits with an optional
    fraction and exponent, one digit at least before or after the dot. *)
Definition unsigned_decimal (neg : bool) (s : string) : number :=
  if String.eqb s "Infinity" then S754_infinity neg
  else
    let '(ip, nint, r1) := read_digits 10 s 0%N 0 in
    let '(m, nfrac, r2) :=
      match r1 with
      | String "." r => read_digits 10 r ip 0
      | _ => (ip, 0, r1)
      end in
    if (nint + nfrac =? 0)%nat then NaN
    else
      match exponent_part r2 with
      | Some e => decimal_to_number neg m (e - Z.of_nat nfrac)
      | None => NaN
      end.

(** NonDecimalIntegerLiteral: [0x], [0o] or [0b] and digits, unsigned. *)
Definition non_decimal (radix : N) (digits : string) : number :=
  match all_digits radix digits with
  | Some v => number_of_Z (Z.of_N v)
  | None => NaN
  end.

(** [Number(s)] for a string [s] (StringToNumber). *)
Definition Number (s : string) : number :=
  match trim s with
  | EmptyString => S754_zero false
  | String "0" (String "x" d) | String "0" (String "X" d) => non_decimal 16 d
  | String "0" (String "o" d) | String "0" (String "O" d) => non_decimal 8 d
  | String "0" (String "b" d) | String "0" (String "B" d) => non_decimal 2 d
  | String "+" d => unsigned_decimal false d
  | String "-" d => unsigned_decimal true d
  | d => unsigned_decimal false d
  end.

(** [s != x] and [s == x] for a string [s] and a number [x]: the string is
    converted with [Number] and the two numbers compared. *)
Definition loose_eq_string_number (s : string) (x : number) : bool :=
  num_eq (Number s) x.

Definition loose_neq_string_number (s : string) (x : number) : bool :=
  negb (loose_eq_string_number s x).

(** *** Arrays *)

(** The index a property key names, if it is an array index: the
    canonical decimal string of a natural number. *)
Definition array_index (key : string) : option nat :=
  match key with
  | String "0" EmptyString => Some 0
  | String "0" _ => None
  | _ => option_map N.to_nat (all_digits 10 key)
  end.

End JS.

(** ** lib/browser.js *)

Module Parser.
Import JS.

(** *** Data *)

(** What travels on the wire or sits in the [data] field of a packet:
    nothing, a string, or a binary chunk (an ArrayBuffer, a sequence of
    bytes). *)
Inductive value : Type :=
| Undefined
| Text (s : string)
| Binary (b : list Byte.byte).

(** A packet [{ type, data }].  The type is a string, or undefined as the
    binary branch of [decodePacket] can leave it; a packet without a
    [data] field has [data = Undefined]. *)
Record packet : Type := Packet { type : option string; data : value }.

(** [String(v)] *)
Definition String_of (v : value) : string :=
  match v with
  | Undefined => "undefined"
  | Text s => s
  | Binary _ => "[object ArrayBuffer]"
  end.

(** What a property read [obj[key]] finds on an object written as a
    literal: a property of its own, a member that it inherits from
    [Object.prototype], or nothing. *)
Inductive lookup (V : Type) : Type :=
| Own (v : V)
| Inherited (member : string)
| NotFound.

Arguments Own {V} v.
Arguments Inherited {V} member.
Arguments NotFound {V}.

(** The names of the members of [Object.prototype]. *)
Definition object_prototype : list string :=
  [ "constructor"; "hasOwnProperty"; "isPrototypeOf"; "propertyIsEnumerable";
    "toLocaleString"; "toString"; "valueOf"; "__proto__";
    "__defineGetter__"; "__defineSetter__"; "__lookupGetter__"; "__lookupSetter__" ].

(** [String(x)] for a member of [Object.prototype]: [__proto__] is that
    object itself, and the others are native functions, [constructor] the
    function [Object].  The white space in the text of a native function
    is the engine's; here it is as V8 prints it. *)
Definition String_of_member (member : string) : string :=
  if String.eqb member "__proto__" then "[object Object]"
  else
    "function "
    ++ (if String.eqb member "constructor" then "Object" else member)
    ++ "() { [native code] }".

(** [String(x)] for what a read of a number-valued property found. *)
Definition String_of_code (x : lookup nat) : string :=
  match x with
  | Own n => string_of_nat n
  | Inherited member => String_of_member member
  | NotFound => "undefined"
  end.

(** Whether a string-valued property that may be missing is truthy. *)
Definition truthy (x : option string) : bool :=
  match x with
  | None => false
  | Some EmptyString => false
  | Some _ => true
  end.

(** Strict equality [===] on values: strings by content, and a binary
    chunk, compared by identity, is never equal to a string. *)
Definition strict_eq (x y : value) : bool :=
  match x, y with
  | Undefined, Undefined => true
  | Text a, Text b => String.eqb a b
  | _, _ => false
  end.

(** Strict equality on the [type] field. *)
Definition strict_eq_type (x y : option string) : bool :=
  match x, y with
  | None, None => true
  | Some a, Some b => String.eqb a b
  | _, _ => false
  end.

(** *** Collaborators *)

(** The module [./utf8]: [encode(s, { strict: false })], which does not
    throw, and [decode(s, { strict: false })], which may. *)
Record Utf8 : Type := {
  utf8_encode : string -> string;
  utf8_decode : string -> completion string
}.

(** [has-binary2], on a sequence of packets: whether one of them carries
    a binary chunk. *)
Definition hasBinary (ps : list packet) : bool :=
  existsb (fun p => match data p with Binary _ => true | _ => false end) ps.

(** [arraybuffer.slice]: the bytes from [start] to the end. *)
Definition sliceBuffer (b : list Byte.byte) (start : nat) : list Byte.byte :=
  skipn start b.

(** [./keys]: the own property names of an object, in insertion order. *)
Definition keys {V : Type} (obj : list (string * V)) : list string :=
  List.map fst obj.

(** The property of its own that an object written as a literal has
    under a key. *)
Fixpoint get_own_property {V : Type} (obj : list (string * V)) (key : string)
  : option V :=
  match obj with
  | [] => None
  | (k, v) :: rest =>
      if String.eqb k key then Some v else get_own_property rest key
  end.

(** [obj[key]] on an object written as a literal: its own property, and
    failing that the member of [Object.prototype] of that name. *)
Definition get_property {V : Type} (obj : list (string * V)) (key : string)
  : lookup V :=
  match get_own_property obj key with
  | Some v => Own v
  | None =>
      if existsb (String.eqb key) object_prototype then Inherited key
      else NotFound
  end.

(** The property key an optional string stands for. *)
Definition property_key (k : option string) : string :=
  match k with
  | Some s => s
  | None => "undefined"
  end.

(** [ary[key]] for an array and a string key of one unit at most, as
    [charAt] gives: no member that an array inherits has such a name. *)
Definition array_get {V : Type} (ary : list V) (key : string) : option V :=
  match array_index key with
  | Some i => nth_error ary i
  | None => None
  end.

(** *** Packet types *)

Definition protocol : nat := 3.

Definition packets : list (string * nat) :=
  [ ("open", 0); ("close", 1); ("ping", 2); ("pong", 3);
    ("message", 4); ("upgrade", 5); ("noop", 6) ].

Definition packetslist : list string := keys packets.

(** Premade error packet. *)
Definition err : packet := {| type := Some "error"; data := Text "parser error" |}.

(** [err.type === packet.type && err.data === packet.data] *)
Definition same_as_err (packet : packet) : bool :=
  strict_eq_type (type err) (type packet) && strict_eq (data err) (data packet).

Section Codec.

Variable utf8 : Utf8.

(** *** encodePacket *)

(** The two places where the source takes a callback in the position of
    an optional argument are not part of the embedding: every argument is
    given.  [supportsBinary] and [utf8encode] are read for their truth. *)
Definition encodePacket {R : Type} (packet : packet) (supportsBinary : bool)
    (utf8encode : bool) (callback : value -> R) : R :=
  (* [var data = packet.data.buffer || packet.data] is not read again by
     the source and has no counterpart here. *)
  let encoded := get_property packets (property_key (type packet)) in
  match data packet with
  | Undefined => callback (Text ("" ++ String_of_code encoded))
  | d =>
      let encoded :=
        String_of_code encoded
        ++ (if utf8encode then utf8_encode utf8 (String_of d) else String_of d) in
      callback (Text ("" ++ encoded))
  end.

(** *** decodePacket *)

(** What [tryDecode] returns: [false], or a string. *)
Inductive false_or_string : Type :=
| False_
| Str (s : string).

Definition tryDecode (data : string) : false_or_string :=
  match utf8_decode utf8 data with
  | Normal s => Str s
  | Throw _ => False_
  end.

Definition decodePacket (data : value) (binaryType : option string)
    (utf8decode : bool) : completion packet :=
  match data with
  | Undefined => Normal err
  | Text s =>
      match (if utf8decode then tryDecode s else Str s) with
      | False_ => Normal err
      | Str data =>
          let type := charAt data 0 in
          if loose_neq_string_number type (Number type)
             || negb (truthy (array_get packetslist type))
          then Normal err
          else if (1 <? String.length data)%nat
          then Normal {| type := array_get packetslist type;
                         data := Text (substring_from data 1) |}
          else Normal {| type := array_get packetslist type;
                         data := Undefined |}
      end
  | Binary b =>
      (* [asArray[0]]: the first byte, or undefined in an empty buffer *)
      let type := option_map Byte.to_nat (hd_error b) in
      let rest := sliceBuffer b 1 in
      Normal {| type := match type with
                        | Some i => nth_error packetslist i
                        | None => None
                        end;
                data := Binary rest |}
  end.

(** *** map *)

(** The functions below run a callback of the caller's.  The caller's
    callback may keep state of its own, of a type [W]; a call of it is a
    step from one such state to the next. *)

Section Map.

Context {A W : Type}.

(** The local variables of one call of [map] that its closures share: the
    array [result], whose slots are empty at first, and the counter of
    [after]. *)
Record map_locals : Type := { result : list (option string); count : nat }.

Definition action : Type := map_locals * W -> completion (map_locals * W).

(** [ary[i] = v]: sets the slot, after filling up with empty slots when
    the array is shorter. *)
Fixpoint array_set (ary : list (option string)) (i : nat) (v : string)
  : list (option string) :=
  match i, ary with
  | O, [] => [Some v]
  | O, _ :: rest => Some v :: rest
  | S i', [] => None :: array_set [] i' v
  | S i', x :: rest => x :: array_set rest i' v
  end.

(** [results.join("")]: an empty slot counts as the empty string. *)
Fixpoint join (results : list (option string)) : string :=
  match results with
  | [] => ""
  | Some s :: rest => s ++ join rest
  | None :: rest => join rest
  end.

(** The function [after(count, done)] returns when [count] is not zero:
    it counts the calls, hands the result to [done] at the last of them,
    and throws at a call too many.  The first argument of the completions,
    the error, is [null] throughout the source and is left out. *)
Definition next (done : option (list (option string)) -> W -> completion W)
    (res : list (option string)) : action :=
  fun '(loc, w) =>
    match count loc with
    | O => Throw (Error "after called too many times")
    | S c =>
        let loc' := {| result := result loc; count := c |} in
        if (c =? 0)%nat
        then bind (done (Some res) w) (fun w' => Normal (loc', w'))
        else Normal (loc', w)
    end.

Definition eachWithIndex (each : A -> (string -> action) -> action)
    (i : nat) (el : A) (cb : list (option string) -> action) : action :=
  each el (fun msg '(loc, w) =>
    let result' := array_set (result loc) i msg in
    cb result' ({| result := result'; count := count loc |}, w)).

(** The loop [for (var i = 0; i < ary.length; i++)], from [i] on. *)
Fixpoint map_loop (each : A -> (string -> action) -> action)
    (cb : list (option string) -> action) (i : nat) (rest : list A) : action :=
  fun st =>
    match rest with
    | [] => Normal st
    | el :: rest' =>
        bind (eachWithIndex each i el cb st) (map_loop each cb (S i) rest')
    end.

Definition map (ary : list A) (each : A -> (string -> action) -> action)
    (done : option (list (option string)) -> W -> completion W) (w : W)
  : completion W :=
  let loc := {| result := repeat None (List.length ary);
                count := List.length ary |} in
  match List.length ary with
  | O =>
      (* [after(0, done)] calls [done()] at once *)
      done None w
  | S _ =>
      bind (map_loop each (next done) 0 ary (loc, w))
           (fun st => Normal (snd st))
  end.

End Map.

(** *** encodePayload *)

Section EncodePayload.

Context {W : Type}.

(** [message.length + ":" + message] *)
Definition setLengthHeader (message : value) : completion string :=
  match message with
  | Text s => Normal (string_of_nat (String.length s) ++ ":" ++ s)
  | Binary _ => Normal ("undefined" ++ ":" ++ String_of message)
  | Undefined => Throw (TypeError "Cannot read property 'length' of undefined")
  end.

Definition encodeOne (isBinary supportsBinary : bool) (packet : packet)
    (doneCallback : string -> @action W) : @action W :=
  encodePacket packet (if negb isBinary then false else supportsBinary) false
    (fun message st =>
       bind (setLengthHeader message) (fun header => doneCallback header st)).

Definition encodePayload (packets : list packet) (supportsBinary : bool)
    (callback : string -> W -> W) (w : W) : completion W :=
  let isBinary := hasBinary packets in
  if (List.length packets =? 0)%nat then Normal (callback "0:" w)
  else
    map packets (encodeOne isBinary supportsBinary)
      (fun results w' =>
         match results with
         | Some results => Normal (callback (join results) w')
         | None => Throw (TypeError "Cannot read property 'join' of undefined")
         end)
      w.

End EncodePayload.

(** *** decodePayload *)

Section DecodePayload.

Context {W : Type}.

(** What the scanner asks of a value the callback returned: whether it is
    the boolean [false]. *)
Inductive returned : Type :=
| ReturnedFalse
| ReturnedOther.

(** [callback(packet, index, total)] *)
Variable callback : packet -> nat -> nat -> W -> W * returned.

(** The loop [for (var i = 0, l = data.length; i < l; i++)] from the test
    [i < l] on, with the variables [i] and [length] as they are there.
    Every turn moves [i] forward, so the loop takes no more than
    [l - i + 1] turns; [fuel] bounds their number, and [None] is a loop
    cut short by it. *)
Fixpoint scan (fuel : nat) (data : string) (binaryType : option string)
    (l i : nat) (length : string) (w : W) : option (completion W) :=
  match fuel with
  | O => None
  | S fuel' =>
      if (i <? l)%nat then
        let chr := charAt data i in
        if negb (String.eqb chr ":") then
          scan fuel' data binaryType l (i + 1) (length ++ chr) w
        else
          let n := Number length in
          if String.eqb length "" || loose_neq_string_number length n then
            (* parser error - ignoring payload *)
            Some (Normal (fst (callback err 0 1 w)))
          else
            let msg := substr data (i + 1) n in
            if loose_neq_string_number length (number_of_nat (String.length msg))
            then
              (* parser error - ignoring payload *)
              Some (Normal (fst (callback err 0 1 w)))
            else if (0 <? String.length msg)%nat then
              match decodePacket (Text msg) binaryType false with
              | Throw e => Some (Throw e)
              | Normal packet =>
                  if same_as_err packet then
                    (* parser error in individual packet - ignoring payload *)
                    Some (Normal (fst (callback err 0 1 w)))
                  else
                    let '(w', ret) := callback packet (index_plus i n) l w in
                    match ret with
                    | ReturnedFalse => Some (Normal w')
                    | ReturnedOther =>
                        (* advance cursor *)
                        scan fuel' data binaryType l (index_plus i n + 1) "" w'
                    end
              end
            else
              (* advance cursor *)
              scan fuel' data binaryType l (index_plus i n + 1) "" w
      else if negb (String.eqb length "") then
        (* parser error - ignoring payload *)
        Some (Normal (fst (callback err 0 1 w)))
      else Some (Normal w)
  end.

Definition decodePayload (data : value) (binaryType : option string) (w : W)
  : option (completion W) :=
  match data with
  | Text "" =>
      (* parser error - ignoring payload *)
      Some (Normal (fst (callback err 0 1 w)))
  | Text s => scan (S (String.length s)) s binaryType (String.length s) 0 "" w
  | Undefined =>
      Some (Throw (TypeError "Cannot read property 'length' of undefined"))
  | Binary _ =>
      (* [data.length] is undefined and [0 < undefined] is false *)
      Some (Normal w)
  end.

End DecodePayload.

End Codec.

End Parser.

(** ** Observing a run of decodePayload *)

Module Observe.
Import JS Parser.

(** One call of the callback: its three arguments, and what the scanner
    saw come back. *)
Record call : Type := Call {
  call_packet : packet;
  call_index : nat;
  call_total : nat;
  call_returned : returned
}.

Section Logged.

Context {W : Type}.
Variable utf8 : Utf8.
Variable callback : packet -> nat -> nat -> W -> W * returned.

(** The callback, with a log of its calls kept beside its state. *)
Definition logged (p : packet) (i t : nat) (st : list call * W)
  : (list call * W) * returned :=
  let '(w', r) := callback p i t (snd st) in
  ((fst st ++ [Call p i t r])%list, w', r).

(** The calls of one run of [decodePayload], in order; [None] for a run
    that throws. *)
Definition calls (data : value) (binaryType : option string) (w : W)
  : option (list call) :=
  match decodePayload utf8 logged data binaryType ([], w) with
  | Some (Normal st) => Some (fst st)
  | _ => None
  end.

End Logged.

(** Collaborators and callbacks to run the codec on given inputs. *)

(** A text codec for strings of ASCII, which UTF-8 leaves as they are. *)
Definition ascii_utf8 : Utf8 :=
  {| utf8_encode := fun s => s; utf8_decode := fun s => Normal s |}.

(** A text codec whose decoder throws at every input. *)
Definition throwing_utf8 : Utf8 :=
  {| utf8_encode := fun s => s;
     utf8_decode := fun _ => Throw (Error "Invalid UTF-8 detected") |}.

(** A callback without state that returns nothing. *)
Definition accept (p : packet) (i t : nat) (w : unit) : unit * returned :=
  (w, ReturnedOther).

(** A callback without state that returns [false]. *)
Definition refuse (p : packet) (i t : nat) (w : unit) : unit * returned :=
  (w, ReturnedFalse).

(** A callback of [encodePayload] that keeps what it is given. *)
Definition deliver (s : string) (w : list string) : list string :=
  (w ++ [s])%list.

(** Whether a string holds the delimiter [:]. *)
Fixpoint has_colon (s : string) : bool :=
  match s with
  | EmptyString => false
  | String c s' => Ascii.eqb c ":" || has_colon s'
  end.

(** The type name the text branch of [decodePacket] finds for
    [type = data.charAt(0)], by the test of the source; [None] where the
    test sends the packet to [err]. *)
Definition type_of_leading (type : string) : option string :=
  if loose_neq_string_number type (Number type)
     || negb (truthy (array_get packetslist type))
  then None
  else array_get packetslist type.

(** The seven type digits. *)
Definition type_of_digit (c : ascii) : option string :=
  if Ascii.eqb c "0" then Some "open"
  else if Ascii.eqb c "1" then Some "close"
  else if Ascii.eqb c "2" then Some "ping"
  else if Ascii.eqb c "3" then Some "pong"
  else if Ascii.eqb c "4" then Some "message"
  else if Ascii.eqb c "5" then Some "upgrade"
  else if Ascii.eqb c "6" then Some "noop"
  else None.

(** Whether a code unit is one of the decimal digits. *)
Definition is_decimal_digit (c : ascii) : bool :=
  ((48 <=? nat_of_ascii c) && (nat_of_ascii c <=? 57))%nat.

(** The paths of [decodePacket] that end in [return err]: no input, a
    decoder that throws, a leading unit that names no type. *)
Definition decode_fails (utf8 : Utf8) (data : value) (utf8decode : bool) : bool :=
  match data with
  | Undefined => true
  | Text s =>
      match (if utf8decode then tryDecode utf8 s else Str s) with
      | False_ => true
      | Str data =>
          match type_of_leading (charAt data 0) with
          | Some _ => false
          | None => true
          end
      end
  | Binary _ => false
  end.

(** A call after which the scanner makes no other: one that returned
    [false], or the call that delivers the error packet. *)
Definition final (c : call) : Prop :=
  call_returned c = ReturnedFalse \/ call_packet c = err.

(** A log in which a final call can only be the last. *)
Definition ends_at_final (log : list call) : Prop :=
  forall k c, nth_error log k = Some c -> final c -> List.length log = S k.

(** The two packets of the round trip of the specification. *)
Definition hello_world : packet :=
  {| type := Some "message"; data := Text "hello world" |}.

Definition hi : packet := {| type := Some "message"; data := Text "hi" |}.

End Observe.

(** ** Streams of frames *)

Module Frames.
Import JS Parser Observe.

(** Whether every unit of a string is a decimal digit. *)
Fixpoint all_decimal (s : string) : bool :=
  match s with
  | EmptyString => true
  | String c s' => is_decimal_digit c && all_decimal s'
  end.

(** The frame of a message: what [setLengthHeader] makes of a string. *)
Definition frame (message : string) : string :=
  string_of_nat (String.length message) ++ ":" ++ message.

(** The frames of a sequence of messages, one after the other. *)
Fixpoint frames (messages : list string) : string :=
  match messages with
  | [] => ""
  | m :: rest => frame m ++ frames rest
  end.

(** A message whose length is an integer that a number holds exactly. *)
Definition small (m : string) : Prop := (Z.of_nat (String.length m) < 2 ^ 53)%Z.

(** The string [encodePacket] hands its callback for a packet, without
    the text codec. *)
Definition encoded (utf8 : Utf8) (p : packet) : string :=
  String_of (encodePacket utf8 p false false (fun wire => wire)).

(** What is left of a packet once encoded and decoded: its type, and its
    data as a string, absent when that string is empty. *)
Definition received (p : packet) : packet :=
  {| type := type p;
     data := match data p with
             | Undefined => Undefined
             | d => match String_of d with
                    | EmptyString => Undefined
                    | s => Text s
                    end
             end |}.

(** A packet whose type is one of the table. *)
Definition valid_type (p : packet) : Prop :=
  exists ty, type p = Some ty /\ In ty packetslist.

(** The packet [decodePacket] returns for a string, without the text
    codec. *)
Definition packet_of_text (utf8 : Utf8) (bt : option string) (m : string) : packet :=
  match decodePacket utf8 (Text m) bt false with
  | Normal p => p
  | Throw _ => err
  end.

(** A message that is empty or decodes to a packet. *)
Definition decodable (utf8 : Utf8) (m : string) : Prop :=
  m = "" \/ decode_fails utf8 (Text m) false = false.

(** A callback that never returns [false]. *)
Definition never_false {W : Type} (cb : packet -> nat -> nat -> W -> W * returned)
  : Prop :=
  forall p i t w, snd (cb p i t w) = ReturnedOther.

(** The call that delivers the error packet, as such a callback sees it. *)
Definition err_call : call := Call err 0 1 ReturnedOther.

Section Run.

Variable utf8 : Utf8.
Context {W : Type}.
Variable callback : packet -> nat -> nat -> W -> W * returned.
Variable binaryType : option string.
Variable l : nat.

(** The run of [decodePayload] told frame by frame, for a stream that
    starts at [pos] with the frames of [messages]: an empty message is
    passed over; a message that does not decode ends the run with the
    error call; a packet is handed to the callback with the position of
    the last unit of its frame, and [false] from the callback ends the
    run; [after] is what the run does behind the last frame. *)
Fixpoint run_frames (messages : list string) (pos : nat) (after : W -> W) (w : W)
  : W :=
  match messages with
  | [] => after w
  | m :: rest =>
      let next := pos + String.length (frame m) in
      if (String.length m =? 0)%nat then run_frames rest next after w
      else
        match decodePacket utf8 (Text m) binaryType false with
        | Throw _ => w (* [decodePacket] returns: [decodePacket_returns] *)
        | Normal packet =>
            if same_as_err packet then fst (callback err 0 1 w)
            else
              let '(w', ret) := callback packet (next - 1) l w in
              match ret with
              | ReturnedFalse => w'
              | ReturnedOther => run_frames rest next after w'
              end
        end
  end.

End Run.

(** The calls that the frames of decodable messages give rise to, with a
    callback that never returns [false]: one for each message that is not
    empty. *)
Fixpoint frame_calls (utf8 : Utf8) (bt : option string) (l : nat)
    (messages : list string) (pos : nat) : list call :=
  match messages with
  | [] => []
  | m :: rest =>
      let next := pos + String.length (frame m) in
      if (String.length m =? 0)%nat then frame_calls utf8 bt l rest next
      else Call (packet_of_text utf8 bt m) (next - 1) l ReturnedOther
             :: frame_calls utf8 bt l rest next
  end.

(** A synchronous [each] for [map], and a [done] that keeps the results. *)
Definition shout (el : string) (k : string -> @action (list (option string)))
  : @action (list (option string)) :=
  k (el ++ "!").

Definition keep (results : option (list (option string))) (w : list (option string))
  : completion (list (option string)) :=
  match results with
  | Some r => Normal r
  | None => Normal w
  end.

(** A number that is a natural number: it equals the number of its
    integer part.  So is [-0], and so is no fraction, no negative number,
    no infinity, nor NaN. *)
Definition is_natural (x : number) : bool :=
  num_eq x (number_of_nat (integer_part x)).

(** Streams that are frames from end to end: each frame a length prefix
    without delimiter, not empty, that [Number] makes the length of the
    message behind the delimiter, and a message that is empty or decodes
    to a packet. *)
Inductive framed (utf8 : Utf8) : string -> Prop :=
| framed_end : framed utf8 ""
| framed_frame (prefix m rest : string) :
    has_colon prefix = false ->
    prefix <> "" ->
    num_eq (Number prefix) (number_of_nat (String.length m)) = true ->
    decodable utf8 m ->
    framed utf8 rest ->
    framed utf8 (prefix ++ ":" ++ m ++ rest).

(** A stream of frames from end to end, with one frame at least. *)
Definition well_framed (utf8 : Utf8) (s : string) : Prop :=
  s <> "" /\ framed utf8 s.

(** A call that delivers a packet, and the call that delivers the error
    packet. *)
Definition packet_call (c : call) : Prop := call_packet c <> err.

Definition error_call (c : call) : Prop :=
  call_packet c = err /\ call_index c = 0 /\ call_total c = 1.

(** A log of packet calls closed by the error call, or by a packet call
    that returned [false]. *)
Definition cut_short (log : list call) : Prop :=
  exists before c,
    log = (before ++ [c])%list
    /\ Forall packet_call before
    /\ (error_call c \/ (packet_call c /\ call_returned c = ReturnedFalse)).

(** What a run adds to the log from a frame boundary with [s] left of the
    stream. *)
Definition outcome (utf8 : Utf8) (s : string) (added : list call) : Prop :=
  (framed utf8 s -> Forall packet_call added)
  /\ (~ framed utf8 s -> cut_short added).

End Frames.

(** ** Properties of the packet codec *)

Import JS Parser Observe.

(** The test of the source on the leading code unit lets the seven type
    digits through and nothing else. *)
Lemma type_of_leading_digit (c : ascii) :
  type_of_leading (String c "") = type_of_digit c.
Proof.
  destruct c as [[] [] [] [] [] [] [] []]; vm_compute; reflexivity.
Qed.

(** The empty string, which [charAt] gives for the empty input, is let
    through by the comparison with its number, 0, and stopped by the
    table. *)
Lemma type_of_leading_empty : type_of_leading "" = None.
Proof. vm_compute. reflexivity. Qed.

Lemma type_of_digit_listed (c : ascii) (ty : string) :
  type_of_digit c = Some ty -> In ty packetslist.
Proof.
  unfold type_of_digit.
  repeat match goal with
         | |- context [Ascii.eqb c ?d] => destruct (Ascii.eqb c d)
         end;
    intros H; inversion H; subst; simpl; tauto.
Qed.

Lemma substring_all (s : string) : String.substring 0 (String.length s) s = s.
Proof.
  induction s as [|c s IH]; simpl; [reflexivity | now rewrite IH].
Qed.

Lemma substring_from_1 (c : ascii) (s : string) : substring_from (String c s) 1 = s.
Proof.
  unfold substring_from. simpl. rewrite Nat.sub_0_r. apply substring_all.
Qed.

(** The text branch of [decodePacket], without the text decoder, by the
    leading code unit. *)
Lemma decodePacket_text (utf8 : Utf8) (bt : option string) (c : ascii) (rest : string) :
  decodePacket utf8 (Text (String c rest)) bt false =
  match type_of_digit c with
  | Some ty =>
      Normal {| type := Some ty;
                data := match rest with
                        | EmptyString => Undefined
                        | _ => Text rest
                        end |}
  | None => Normal err
  end.
Proof.
  rewrite <- type_of_leading_digit.
  unfold decodePacket, type_of_leading.
  change (charAt (String c rest) 0) with (String c EmptyString).
  destruct (loose_neq_string_number (String c EmptyString) (Number (String c EmptyString))
            || negb (truthy (array_get packetslist (String c EmptyString)))) eqn:G.
  - reflexivity.
  - apply orb_false_elim in G. destruct G as [_ G].
    destruct (array_get packetslist (String c EmptyString)) as [ty|] eqn:E;
      [|discriminate G].
    rewrite substring_from_1.
    destruct rest; reflexivity.
Qed.

Lemma decodePacket_text_empty (utf8 : Utf8) (bt : option string) :
  decodePacket utf8 (Text EmptyString) bt false = Normal err.
Proof. reflexivity. Qed.

(** With the text decoder, the packet is the one of the decoded string,
    and [err] when the decoder throws. *)
Lemma decodePacket_utf8 (utf8 : Utf8) (bt : option string) (s : string) :
  decodePacket utf8 (Text s) bt true =
  match utf8_decode utf8 s with
  | Normal s' => decodePacket utf8 (Text s') bt false
  | Throw _ => Normal err
  end.
Proof.
  unfold decodePacket, tryDecode. destruct (utf8_decode utf8 s); reflexivity.
Qed.

(** [decodePacket] returns, whatever it is given. *)
Lemma decodePacket_returns (utf8 : Utf8) (data : value) (bt : option string)
    (utf8decode : bool) :
  exists p, decodePacket utf8 data bt utf8decode = Normal p.
Proof.
  assert (T : forall s, exists p, decodePacket utf8 (Text s) bt false = Normal p).
  { intros [|c rest].
    - eexists; reflexivity.
    - rewrite decodePacket_text. destruct (type_of_digit c); eexists; reflexivity. }
  destruct data as [|s|b].
  - eexists; reflexivity.
  - destruct utf8decode; [|apply T].
    rewrite decodePacket_utf8. destruct (utf8_decode utf8 s); [apply T|].
    eexists; reflexivity.
  - eexists; reflexivity.
Qed.

(** [decodePacket] returns [err] on the paths of [decode_fails], and on
    the others a packet that the comparison with [err] tells apart: its
    type is one of the table, or, from a binary chunk only, undefined. *)
Lemma decodePacket_fails_or_not (utf8 : Utf8) (data : value) (bt : option string)
    (utf8decode : bool) :
  exists p, decodePacket utf8 data bt utf8decode = Normal p /\
    if decode_fails utf8 data utf8decode
    then p = err
    else same_as_err p = false /\
         match data with
         | Binary _ =>
             type p = None \/ exists ty, type p = Some ty /\ In ty packetslist
         | _ => exists ty, type p = Some ty /\ In ty packetslist
         end.
Proof.
  assert (T : forall s, exists p, decodePacket utf8 (Text s) bt false = Normal p /\
    if decode_fails utf8 (Text s) false then p = err
    else same_as_err p = false /\
         exists ty, type p = Some ty /\ In ty packetslist).
  { intros [|c rest].
    - eexists; split; reflexivity.
    - rewrite decodePacket_text. unfold decode_fails.
      change (charAt (String c rest) 0) with (String c "").
      rewrite type_of_leading_digit.
      destruct (type_of_digit c) as [ty|] eqn:E.
      + eexists; split; [reflexivity|]. split.
        * apply type_of_digit_listed in E. simpl in E.
          decompose [or] E; subst; try contradiction; reflexivity.
        * exists ty. split; [reflexivity | eapply type_of_digit_listed; eauto].
      + eexists; split; reflexivity. }
  destruct data as [|s|b].
  - eexists; split; reflexivity.
  - destruct utf8decode; [|apply T].
    rewrite decodePacket_utf8. unfold decode_fails, tryDecode.
    destruct (utf8_decode utf8 s) as [s'|e]; [apply T|].
    eexists; split; reflexivity.
  - eexists; split; [reflexivity|]. simpl. split.
    + unfold same_as_err. simpl.
      destruct (match option_map Byte.to_nat (hd_error b) with
                | Some i => nth_error packetslist i
                | None => None
                end); simpl; [apply andb_false_r | reflexivity].
    + destruct (option_map Byte.to_nat (hd_error b)) as [i|]; [|now left].
      destruct (nth_error packetslist i) as [ty|] eqn:E; [|now left].
      right. exists ty. split; [reflexivity | exact (nth_error_In packetslist i E)].
Qed.

Lemma error_not_listed : ~ In "error" packetslist.
Proof.
  simpl. intros H. decompose [or] H; try discriminate; assumption.
Qed.

(** C1, as amended: for each of the seven packet types and every string
    [d], decoding the text encoding of [{ type, data: d }] (no binary
    support, no text codec) gives back [{ type, data: d }] when [d] is not
    empty, and a packet of that type without a data field when [d] is the
    empty string. *)
Theorem encodePacket_decodePacket_text (utf8 : Utf8) (bt : option string)
    (ty d : string) :
  In ty packetslist ->
  encodePacket utf8 {| type := Some ty; data := Text d |} false false
    (fun wire => decodePacket utf8 wire bt false)
  = Normal {| type := Some ty;
              data := if String.eqb d "" then Undefined else Text d |}.
Proof.
  intros H. simpl in H.
  decompose [or] H; try contradiction; subst ty;
    unfold encodePacket; cbn [type data property_key];
    match goal with
    | |- context [String_of_code ?x] =>
        let v := eval vm_compute in (String_of_code x) in
        change (String_of_code x) with v
    end;
    cbn [String_of append]; rewrite decodePacket_text;
    destruct d; reflexivity.
Qed.

Lemma encodePacket_decodePacket_text_witness :
  encodePacket ascii_utf8 {| type := Some "message"; data := Text "hello world" |}
    false false (fun wire => decodePacket ascii_utf8 wire None false)
  = Normal {| type := Some "message"; data := Text "hello world" |}.
Proof.
  apply (encodePacket_decodePacket_text ascii_utf8 None "message" "hello world").
  simpl. tauto.
Defined.

(** C1, as stated, fails at the empty string: the packet that comes back
    has no data field. *)
Lemma encodePacket_decodePacket_empty_data :
  encodePacket ascii_utf8 {| type := Some "message"; data := Text "" |}
    false false (fun wire => decodePacket ascii_utf8 wire None false)
  = Normal {| type := Some "message"; data := Undefined |}
  /\ {| type := Some "message"; data := Undefined |}
     <> {| type := Some "message"; data := Text "" |}.
Proof.
  split; [vm_compute; reflexivity | discriminate].
Qed.

(** C2: with a binary chunk as data and binary support declared,
    [encodePacket] hands its callback a string, the type code followed by
    [String(data)], and no binary buffer; for the message packet with the
    bytes 1, 2, 3 the string is [4[object ArrayBuffer]]. *)
Theorem encodePacket_binary_data_is_stringified (utf8 : Utf8)
    (ty : option string) (b : list Byte.byte) (supportsBinary utf8encode : bool) :
  encodePacket utf8 {| type := ty; data := Binary b |} supportsBinary utf8encode
    (fun wire => wire)
  = Text (String_of_code (get_property packets (property_key ty))
          ++ (if utf8encode then utf8_encode utf8 "[object ArrayBuffer]"
              else "[object ArrayBuffer]"))
  /\ encodePacket ascii_utf8
       {| type := Some "message"; data := Binary [Byte.x01; Byte.x02; Byte.x03] |}
       true false (fun wire => wire)
     = Text "4[object ArrayBuffer]".
Proof.
  split; reflexivity.
Qed.

(** C5: [decodePacket] returns the error packet, and does not throw, for
    no input, for the empty string, for a string that starts with a digit
    above 6, and for a string that starts with anything that is no digit;
    [9hello] and [astring] are two such strings. *)
Theorem decodePacket_malformed_is_err (utf8 : Utf8) (bt : option string) :
  (forall utf8decode, decodePacket utf8 Undefined bt utf8decode = Normal err) /\
  decodePacket utf8 (Text "") bt false = Normal err /\
  (forall c rest,
      is_decimal_digit c = true -> nat_of_ascii "6" < nat_of_ascii c ->
      decodePacket utf8 (Text (String c rest)) bt false = Normal err) /\
  (forall c rest,
      is_decimal_digit c = false ->
      decodePacket utf8 (Text (String c rest)) bt false = Normal err) /\
  decodePacket utf8 (Text "9hello") bt false = Normal err /\
  decodePacket utf8 (Text "astring") bt false = Normal err.
Proof.
  assert (D : forall c rest, type_of_digit c = None ->
                decodePacket utf8 (Text (String c rest)) bt false = Normal err).
  { intros c rest E. rewrite decodePacket_text, E. reflexivity. }
  split; [reflexivity|]. split; [reflexivity|].
  split; [|split; [|split; apply D; reflexivity]].
  - intros c rest Hd Hc. apply D.
    destruct c as [[] [] [] [] [] [] [] []]; try reflexivity;
      try discriminate Hd; vm_compute in Hc; lia.
  - intros c rest Hd. apply D.
    destruct c as [[] [] [] [] [] [] [] []]; try reflexivity; discriminate Hd.
Qed.

Lemma decodePacket_malformed_is_err_witness :
  decodePacket ascii_utf8 (Text "7up") None false = Normal err
  /\ decodePacket ascii_utf8 (Text "{}") None false = Normal err.
Proof.
  pose proof (decodePacket_malformed_is_err ascii_utf8 None) as (_ & _ & H7 & Hn & _).
  split.
  - apply H7; [reflexivity | vm_compute; lia].
  - apply Hn. reflexivity.
Defined.

(** C10: what [decodePacket] returns is the error packet itself or has a
    type other than [error]: from a string the type is one of the seven of
    the table, from a binary chunk one of the table or undefined.  The
    comparison of [decodePayload] with the type and data of the error
    packet therefore holds on the failing paths of [decodePacket] and on
    no other. *)
Theorem decodePacket_error_type_only_for_err (utf8 : Utf8) (data : value)
    (bt : option string) (utf8decode : bool) :
  exists p, decodePacket utf8 data bt utf8decode = Normal p /\
    (p = err \/ type p <> Some "error") /\
    (same_as_err p = true <-> decode_fails utf8 data utf8decode = true) /\
    (same_as_err p = true <-> p = err) /\
    (p = err \/
     match data with
     | Binary _ =>
         type p = None \/ exists ty, type p = Some ty /\ In ty packetslist
     | _ => exists ty, type p = Some ty /\ In ty packetslist
     end).
Proof.
  destruct (decodePacket_fails_or_not utf8 data bt utf8decode) as (p & E & H).
  exists p. split; [exact E|].
  destruct (decode_fails utf8 data utf8decode).
  - subst p. repeat split; auto.
  - destruct H as [Hs Ht].
    assert (Hne : type p <> Some "error").
    { intros Hp. apply error_not_listed.
      destruct data; [destruct Ht as (ty & Hty & Hin) | destruct Ht as (ty & Hty & Hin)
                     | destruct Ht as [Hn | (ty & Hty & Hin)]];
        try congruence. }
    assert (Hpe : p <> err) by (intros ->; apply Hne; reflexivity).
    repeat split; auto; try congruence; intros; try contradiction.
Qed.

Lemma decodePacket_error_type_only_for_err_witness :
  exists p, decodePacket ascii_utf8 (Text "4error") None false = Normal p /\
    (p = err \/ type p <> Some "error") /\
    (same_as_err p = true <-> decode_fails ascii_utf8 (Text "4error") false = true) /\
    (same_as_err p = true <-> p = err) /\
    (p = err \/ exists ty, type p = Some ty /\ In ty packetslist).
Proof.
  exact (decodePacket_error_type_only_for_err ascii_utf8 (Text "4error") None false).
Defined.

(** ** Properties of the payload codec *)

Section Scan.

Variable utf8 : Utf8.
Context {W : Type}.

(** The loop of [decodePayload] ends, and ends without throwing, when the
    fuel exceeds what is left of the string. *)
Lemma scan_returns (cb : packet -> nat -> nat -> W -> W * returned) :
  forall fuel data bt l i len w,
    l - i < fuel ->
    exists w', scan utf8 cb fuel data bt l i len w = Some (Normal w').
Proof.
  induction fuel as [|fuel IH]; intros data bt l i len w Hf; [lia|].
  cbn [scan].
  destruct (i <? l)%nat eqn:Hil.
  2: { destruct (negb (len =? "")%string); eexists; reflexivity. }
  apply Nat.ltb_lt in Hil.
  destruct (negb (charAt data i =? ":")%string).
  { apply IH. lia. }
  destruct ((len =? "")%string || loose_neq_string_number len (Number len));
    [eexists; reflexivity|].
  destruct (loose_neq_string_number len
              (number_of_nat (String.length (substr data (i + 1) (Number len)))));
    [eexists; reflexivity|].
  destruct (0 <? String.length (substr data (i + 1) (Number len)))%nat.
  2: { apply IH. unfold index_plus. lia. }
  destruct (decodePacket_returns utf8 (Text (substr data (i + 1) (Number len))) bt false)
    as [p Hp].
  rewrite Hp.
  destruct (same_as_err p); [eexists; reflexivity|].
  destruct (cb p (index_plus i (Number len)) l w) as [w' []];
    [eexists; reflexivity|].
  apply IH. unfold index_plus. lia.
Qed.

(** [decodePayload] returns for every string. *)
Lemma decodePayload_returns (cb : packet -> nat -> nat -> W -> W * returned)
    (s : string) (bt : option string) (w : W) :
  exists w', decodePayload utf8 cb (Text s) bt w = Some (Normal w').
Proof.
  destruct s as [|c s]; [eexists; reflexivity|].
  unfold decodePayload. apply scan_returns. lia.
Qed.

Lemma ends_at_final_nil : ends_at_final [].
Proof. intros [|k] c H; discriminate H. Qed.

Lemma ends_at_final_one (c : call) : ends_at_final [c].
Proof.
  intros [|k] c' H _; [reflexivity|].
  destruct k; discriminate H.
Qed.

Lemma ends_at_final_cons (c : call) (log : list call) :
  ~ final c -> ends_at_final log -> ends_at_final (c :: log).
Proof.
  intros Hc Hlog [|k] c' H F; simpl in *.
  - inversion H; subst. contradiction.
  - f_equal. eapply Hlog; eauto.
Qed.

Lemma same_as_err_false_neq (p : packet) : same_as_err p = false -> p <> err.
Proof. intros H ->. discriminate H. Qed.

(** The call that delivers the error packet adds one entry to the log. *)
Lemma logged_err_call (cb : packet -> nat -> nat -> W -> W * returned)
    (log : list call) (w : W) :
  fst (fst (logged cb err 0 1 (log, w)))
  = (log ++ [Call err 0 1 (snd (cb err 0 1 w))])%list.
Proof.
  unfold logged. simpl. destruct (cb err 0 1 w); reflexivity.
Qed.

(** Closes a case in which the run has ended with the error call. *)
Ltac ended_with_err H :=
  inversion H; subst; eexists; split;
  [apply logged_err_call | apply ends_at_final_one].

(** What the logged loop adds to the log ends at its first final call. *)
Lemma scan_logged_ends_at_final (cb : packet -> nat -> nat -> W -> W * returned) :
  forall fuel data bt l i len log w st,
    scan utf8 (logged cb) fuel data bt l i len (log, w) = Some (Normal st) ->
    exists calls, fst st = (log ++ calls)%list /\ ends_at_final calls.
Proof.
  induction fuel as [|fuel IH]; intros data bt l i len log w st H; [discriminate H|].
  cbn [scan] in H.
  destruct (i <? l)%nat.
  2: { destruct (negb (len =? "")%string); [ended_with_err H|].
       inversion H; subst. exists [].
       split; [now rewrite app_nil_r | apply ends_at_final_nil]. }
  destruct (negb (charAt data i =? ":")%string); [eapply IH; eauto|].
  destruct ((len =? "")%string || loose_neq_string_number len (Number len));
    [ended_with_err H|].
  destruct (loose_neq_string_number len
              (number_of_nat (String.length (substr data (i + 1) (Number len)))));
    [ended_with_err H|].
  destruct (0 <? String.length (substr data (i + 1) (Number len)))%nat;
    [|eapply IH; eauto].
  destruct (decodePacket utf8 (Text (substr data (i + 1) (Number len))) bt false)
    as [p|e]; [|discriminate H].
  destruct (same_as_err p) eqn:Hp; [ended_with_err H|].
  unfold logged in H at 1. simpl fst in H. simpl snd in H.
  destruct (cb p (index_plus i (Number len)) l w) as [w' r] eqn:Hcb.
  destruct r.
  - inversion H; subst. eexists. split; [reflexivity | apply ends_at_final_one].
  - apply IH in H. destruct H as (calls & Hst & Hfin).
    exists (Call p (index_plus i (Number len)) l ReturnedOther :: calls). split.
    + rewrite Hst, <- app_assoc. reflexivity.
    + apply ends_at_final_cons; [|exact Hfin].
      intros [F|F]; [discriminate F|].
      exact (same_as_err_false_neq p Hp F).
Qed.

(** The log of calls of a run ends at its first final call. *)
Lemma calls_end_at_final (cb : packet -> nat -> nat -> W -> W * returned)
    (data : value) (bt : option string) (w : W) (log : list call) :
  calls utf8 cb data bt w = Some log -> ends_at_final log.
Proof.
  unfold calls, decodePayload. intros H.
  destruct data as [|s|b].
  - discriminate H.
  - destruct s as [|c s].
    + inversion H; subst. rewrite logged_err_call. apply ends_at_final_one.
    + destruct (scan utf8 (logged cb) (S (String.length (String c s))) (String c s) bt
                  (String.length (String c s)) 0 "" ([], w)) as [[st|e]|] eqn:R;
        try discriminate H.
      inversion H; subst.
      apply scan_logged_ends_at_final in R. destruct R as (calls & -> & Hfin).
      exact Hfin.
  - inversion H; subst. apply ends_at_final_nil.
Qed.

(** The state of the callback goes through the logged run as through the
    run itself: the log is an observation and changes nothing. *)
Lemma scan_logged_state (cb : packet -> nat -> nat -> W -> W * returned) :
  forall fuel data bt l i len log w,
    match scan utf8 (logged cb) fuel data bt l i len (log, w) with
    | Some (Normal st) => scan utf8 cb fuel data bt l i len w = Some (Normal (snd st))
    | Some (Throw e) => scan utf8 cb fuel data bt l i len w = Some (Throw e)
    | None => scan utf8 cb fuel data bt l i len w = None
    end.
Proof.
  assert (E : forall p i t log w,
             snd (fst (logged cb p i t (log, w))) = fst (cb p i t w)).
  { intros. unfold logged. simpl. destruct (cb p i t w); reflexivity. }
  induction fuel as [|fuel IH]; intros data bt l i len log w; [reflexivity|].
  cbn [scan].
  destruct (i <? l)%nat.
  2: { destruct (negb (len =? "")%string); [rewrite E|]; reflexivity. }
  destruct (negb (charAt data i =? ":")%string); [apply IH|].
  destruct ((len =? "")%string || loose_neq_string_number len (Number len));
    [rewrite E; reflexivity|].
  destruct (loose_neq_string_number len
              (number_of_nat (String.length (substr data (i + 1) (Number len)))));
    [rewrite E; reflexivity|].
  destruct (0 <? String.length (substr data (i + 1) (Number len)))%nat; [|apply IH].
  destruct (decodePacket utf8 (Text (substr data (i + 1) (Number len))) bt false)
    as [p|e]; [|reflexivity].
  destruct (same_as_err p); [rewrite E; reflexivity|].
  unfold logged at 1. simpl fst. simpl snd.
  destruct (cb p (index_plus i (Number len)) l w) as [w' r].
  destruct r; [reflexivity | apply IH].
Qed.

Lemma append_empty_r (s : string) : s ++ "" = s.
Proof. induction s as [|c s IH]; simpl; [reflexivity | now rewrite IH]. Qed.

Lemma append_assoc (a b c : string) : (a ++ b) ++ c = a ++ (b ++ c).
Proof. induction a as [|x a IH]; simpl; [reflexivity | now rewrite IH]. Qed.

Lemma length_append (a b : string) :
  String.length (a ++ b) = String.length a + String.length b.
Proof. induction a as [|x a IH]; simpl; [reflexivity | now rewrite IH]. Qed.

Lemma charAt_append (pre : string) (c : ascii) (rest : string) :
  charAt (pre ++ String c rest) (String.length pre) = String c "".
Proof.
  unfold charAt. induction pre as [|x pre IH]; simpl; [reflexivity | exact IH].
Qed.

(** The loop gathers the units before a delimiter into [length]. *)
Lemma scan_gathers_prefix (cb : packet -> nat -> nat -> W -> W * returned)
    (data : string) (bt : option string) (rest : string) (fuel : nat) (w : W) :
  forall suf pre acc,
    has_colon suf = false ->
    data = pre ++ suf ++ String ":" rest ->
    scan utf8 cb (String.length suf + fuel) data bt (String.length data)
      (String.length pre) acc w
    = scan utf8 cb fuel data bt (String.length data)
        (String.length pre + String.length suf) (acc ++ suf) w.
Proof.
  induction suf as [|c suf IH]; intros pre acc Hc Hd.
  - simpl. now rewrite Nat.add_0_r, append_empty_r.
  - simpl in Hc. apply orb_false_elim in Hc. destruct Hc as [Hc Hs].
    change (String.length (String c suf) + fuel) with (S (String.length suf + fuel)).
    cbn [scan].
    assert (L : (String.length pre <? String.length data)%nat = true).
    { apply Nat.ltb_lt. rewrite Hd, length_append. simpl. lia. }
    rewrite L.
    assert (C : charAt data (String.length pre) = String c "").
    { rewrite Hd. apply (charAt_append pre c). }
    rewrite C.
    assert (N : (String c "" =? ":")%string = false).
    { simpl. now rewrite Hc. }
    rewrite N. cbn [negb].
    replace (String.length pre + 1) with (String.length (pre ++ String c ""))
      by (rewrite length_append; reflexivity).
    rewrite (IH (pre ++ String c "") (acc ++ String c "") Hs).
    + rewrite length_append, !append_assoc. simpl.
      now rewrite <- Nat.add_assoc.
    + rewrite Hd, append_assoc. reflexivity.
Qed.

(** A number equals itself unless it is NaN. *)
Lemma num_eq_self (x : number) : num_eq x x = negb (isNaN x).
Proof.
  unfold num_eq, SFeqb.
  destruct x as [[]|[]| |[] m e]; simpl; try reflexivity;
    now rewrite Z.compare_refl, Pos.compare_cont_refl.
Qed.

(** The first test at a delimiter, [length === "" || length != Number(length)],
    stops the empty prefix and the prefixes that are no number, and no
    other. *)
Lemma length_test (len : string) :
  (len =? "")%string || loose_neq_string_number len (Number len)
  = (len =? "")%string || isNaN (Number len).
Proof.
  unfold loose_neq_string_number, loose_eq_string_number.
  now rewrite num_eq_self, negb_involutive.
Qed.

(** At a delimiter, an empty prefix or one that is no number ends the
    run with the one call that delivers the error packet. *)
Lemma scan_rejects_prefix (cb : packet -> nat -> nat -> W -> W * returned)
    (fuel : nat) (data : string) (bt : option string) (l i : nat) (len : string)
    (w : W) :
  i < l ->
  charAt data i = ":" ->
  len = "" \/ isNaN (Number len) = true ->
  scan utf8 cb (S fuel) data bt l i len w = Some (Normal (fst (cb err 0 1 w))).
Proof.
  intros Hil Hc Hlen. cbn [scan].
  apply Nat.ltb_lt in Hil. rewrite Hil, Hc.
  change (negb (":" =? ":")%string) with false. cbv iota.
  rewrite length_test.
  destruct Hlen as [->|Hn]; [reflexivity|].
  rewrite Hn, orb_true_r. reflexivity.
Qed.

(** The same, for the first frame of a stream. *)
Lemma decodePayload_rejects_prefix (cb : packet -> nat -> nat -> W -> W * returned)
    (bt : option string) (prefix rest : string) (w : W) :
  has_colon prefix = false ->
  prefix = "" \/ isNaN (Number prefix) = true ->
  decodePayload utf8 cb (Text (prefix ++ String ":" rest)) bt w
  = Some (Normal (fst (cb err 0 1 w))).
Proof.
  intros Hc Hp.
  set (data := prefix ++ String ":" rest).
  assert (Hl : String.length data = String.length prefix + S (String.length rest)).
  { unfold data. rewrite length_append. reflexivity. }
  assert (Hs : forall s, 0 < String.length s ->
               decodePayload utf8 cb (Text s) bt w
               = scan utf8 cb (S (String.length s)) s bt (String.length s) 0 "" w).
  { intros [|c s] Hs; [inversion Hs | reflexivity]. }
  rewrite Hs by lia.
  replace (S (String.length data))
    with (String.length prefix + S (S (String.length rest))) by lia.
  pose proof (scan_gathers_prefix cb data bt rest (S (S (String.length rest))) w
                prefix "" "" Hc eq_refl) as G.
  change (String.length "" + String.length prefix) with (String.length prefix) in G.
  change (String.length "") with 0 in G.
  change ("" ++ prefix) with prefix in G.
  rewrite G.
  apply scan_rejects_prefix.
  - simpl. lia.
  - unfold data. apply (charAt_append prefix ":").
  - exact Hp.
Qed.

End Scan.

(** The state of the callback goes through the logged run of
    [decodePayload] as through the run itself. *)
Lemma decodePayload_logged_state (utf8 : Utf8) (W : Type)
    (cb : packet -> nat -> nat -> W -> W * returned)
    (s : string) (bt : option string) (w : W) :
  exists st,
    decodePayload utf8 (logged cb) (Text s) bt ([], w) = Some (Normal st)
    /\ decodePayload utf8 cb (Text s) bt w = Some (Normal (snd st)).
Proof.
  destruct (decodePayload_returns utf8 (logged cb) s bt ([], w)) as [st Hst].
  exists st. split; [exact Hst|].
  destruct s as [|c s].
  - inversion Hst; subst. unfold logged. simpl.
    destruct (cb err 0 1 w); reflexivity.
  - unfold decodePayload in *.
    pose proof (scan_logged_state utf8 cb (S (String.length (String c s))) (String c s) bt
                  (String.length (String c s)) 0 "" [] w) as G.
    rewrite Hst in G. exact G.
Qed.


(** C3, as amended: from the two message packets [hello world] and [hi],
    [encodePayload] produces the stream [12:4hello world3:4hi], each
    length counting the type digit with the data; and [decodePayload] of
    that stream, with a callback that does not return [false] at the first
    packet, calls it twice: with the packet [hello world] at 14 of 20, then
    with the packet [hi] at 19 of 20. *)
Theorem encodePayload_decodePayload_hello_world (utf8 : Utf8)
    (supportsBinary : bool) (W : Type)
    (cb : packet -> nat -> nat -> W -> W * returned) (bt : option string) (w : W) :
  snd (cb hello_world 14 20 w) = ReturnedOther ->
  encodePayload utf8 [hello_world; hi] supportsBinary deliver []
  = Normal ["12:4hello world3:4hi"]
  /\ calls utf8 cb (Text "12:4hello world3:4hi") bt w
     = Some [ Call hello_world 14 20 ReturnedOther;
              Call hi 19 20 (snd (cb hi 19 20 (fst (cb hello_world 14 20 w)))) ].
Proof.
  intros H. split.
  - destruct supportsBinary; vm_compute; reflexivity.
  - vm_compute in H. vm_compute.
    match type of H with
    | (let (_, _) := ?c in _) = _ => destruct c as [w1 r1]
    end.
    subst r1.
    match goal with
    | |- context [cb ?p 19 20 w1] => destruct (cb p 19 20 w1) as [w2 []]
    end; reflexivity.
Qed.

Lemma encodePayload_decodePayload_hello_world_witness :
  encodePayload ascii_utf8 [hello_world; hi] false deliver []
  = Normal ["12:4hello world3:4hi"]
  /\ calls ascii_utf8 accept (Text "12:4hello world3:4hi") None tt
     = Some [ Call hello_world 14 20 ReturnedOther;
              Call hi 19 20 ReturnedOther ].
Proof.
  apply (encodePayload_decodePayload_hello_world ascii_utf8 false unit accept None tt).
  reflexivity.
Defined.

(** C3, as stated, fails: the stream that is produced is not
    [11:4hello world2:4hi], and that stream does not decode to the two
    packets. *)
Lemma encodePayload_hello_world_stream :
  encodePayload ascii_utf8 [hello_world; hi] false deliver []
  = Normal ["12:4hello world3:4hi"]
  /\ "12:4hello world3:4hi" <> "11:4hello world2:4hi"
  /\ calls ascii_utf8 accept (Text "11:4hello world2:4hi") None tt
     = Some [ Call {| type := Some "message"; data := Text "hello worl" |} 13 20
                ReturnedOther;
              Call err 0 1 ReturnedOther ].
Proof.
  split; [vm_compute; reflexivity|].
  split; [discriminate | vm_compute; reflexivity].
Qed.

(** C4, as stated, fails for [decodePayload] without input: reading
    [data.length] throws a TypeError, and the callback is not called. *)
Lemma decodePayload_undefined_throws :
  decodePayload ascii_utf8 accept Undefined None tt
  = Some (Throw (TypeError "Cannot read property 'length' of undefined")).
Proof. reflexivity. Qed.


(** C7, as amended: the stream [3:4ab] is whole, its three units [4ab]
    being the frame it declares: [decodePayload] calls the callback once,
    with the message packet [ab] at 4 of 5, and delivers no error.  The
    streams [4:4ab] and [3:4a], which declare more than is left, are
    truncated: for each the callback is called once, with the error
    packet, 0 and 1. *)
Theorem decodePayload_frame_3_4ab (utf8 : Utf8) (W : Type)
    (cb : packet -> nat -> nat -> W -> W * returned) (bt : option string) (w : W) :
  calls utf8 cb (Text "3:4ab") bt w
  = Some [ Call {| type := Some "message"; data := Text "ab" |} 4 5
             (snd (cb {| type := Some "message"; data := Text "ab" |} 4 5 w)) ]
  /\ calls utf8 cb (Text "4:4ab") bt w = Some [Call err 0 1 (snd (cb err 0 1 w))]
  /\ calls utf8 cb (Text "3:4a") bt w = Some [Call err 0 1 (snd (cb err 0 1 w))].
Proof.
  split; [|split]; vm_compute;
    match goal with
    | |- context [cb ?p ?i ?t w] => destruct (cb p i t w) as [w' []]
    end; reflexivity.
Qed.

(** C7, as stated, fails: the one call for [3:4ab] delivers a packet, not
    the error packet. *)
Lemma decodePayload_3_4ab_is_a_packet :
  calls ascii_utf8 accept (Text "3:4ab") None tt
  = Some [Call {| type := Some "message"; data := Text "ab" |} 4 5 ReturnedOther]
  /\ {| type := Some "message"; data := Text "ab" |} <> err.
Proof.
  split; [vm_compute; reflexivity | discriminate].
Qed.

(** C8: for no packets [encodePayload] hands its callback the string
    [0:], which is not the empty string; and [decodePayload] of [0:] makes
    no call of its callback, for a packet or for an error, and returns. *)
Theorem encodePayload_decodePayload_no_packets (utf8 : Utf8)
    (supportsBinary : bool) (V W : Type) (callback : string -> V -> V) (v : V)
    (cb : packet -> nat -> nat -> W -> W * returned) (bt : option string) (w : W) :
  encodePayload utf8 [] supportsBinary callback v = Normal (callback "0:" v)
  /\ "0:" <> ""
  /\ calls utf8 cb (Text "0:") bt w = Some []
  /\ decodePayload utf8 cb (Text "0:") bt w = Some (Normal w).
Proof.
  split; [reflexivity|].
  split; [discriminate|].
  split; vm_compute; reflexivity.
Qed.

(** C9: in a run of [decodePayload], on any input, a call of the callback
    that returns [false] is the last call of the run: no call follows it,
    for a packet or for an error. *)
Theorem decodePayload_stops_at_false (utf8 : Utf8) (W : Type)
    (cb : packet -> nat -> nat -> W -> W * returned) (data : value)
    (bt : option string) (w : W) (log : list call) (k : nat) (c : call) :
  calls utf8 cb data bt w = Some log ->
  nth_error log k = Some c ->
  call_returned c = ReturnedFalse ->
  List.length log = S k.
Proof.
  intros Hlog Hk Hc.
  apply (calls_end_at_final utf8 cb data bt w log Hlog k c Hk).
  left. exact Hc.
Qed.

Lemma decodePayload_stops_at_false_witness :
  exists log,
    calls ascii_utf8 refuse (Text "2:4a2:4b") None tt = Some log
    /\ nth_error log 0
       = Some (Call {| type := Some "message"; data := Text "a" |} 3 8 ReturnedFalse)
    /\ List.length log = 1.
Proof.
  eexists. split; [vm_compute; reflexivity|]. split; [reflexivity|].
  apply (decodePayload_stops_at_false ascii_utf8 unit refuse (Text "2:4a2:4b") None tt
           _ 0 (Call {| type := Some "message"; data := Text "a" |} 3 8 ReturnedFalse));
    reflexivity.
Defined.

(** ** Numbers and their decimal strings *)

Import Frames.


Lemma string_of_uint_decimal (d : Decimal.uint) :
  all_decimal (NilEmpty.string_of_uint d) = true.
Proof. induction d; simpl; auto. Qed.

Lemma decimal_not_white (c : ascii) : is_decimal_digit c = true -> is_white_space c = false.
Proof.
  unfold is_decimal_digit, is_white_space. intros H.
  apply andb_true_iff in H. destruct H as [H1 H2].
  apply Nat.leb_le in H1. apply Nat.leb_le in H2.
  repeat rewrite orb_false_iff. repeat split.
  - apply andb_false_iff. right. apply Nat.leb_gt. lia.
  - apply Nat.eqb_neq. lia.
  - apply Nat.eqb_neq. lia.
Qed.

Lemma trim_decimal (s : string) : all_decimal s = true -> trim s = s.
Proof.
  intros H. unfold trim.
  assert (S1 : trim_start s = s).
  { destruct s as [|c s]; [reflexivity|]. simpl in *.
    apply andb_true_iff in H. destruct H as [H _].
    now rewrite (decimal_not_white c H). }
  rewrite S1. clear S1.
  induction s as [|c s IH]; [reflexivity|].
  simpl in *. apply andb_true_iff in H. destruct H as [Hc Hs].
  rewrite (IH Hs). destruct s; [|reflexivity].
  now rewrite (decimal_not_white c Hc).
Qed.

Lemma read_digits_uint (d : Decimal.uint) : forall (acc : N) (count : nat),
  read_digits 10 (NilEmpty.string_of_uint d) acc count
  = (N.of_nat (Nat.of_uint_acc d (N.to_nat acc)), count + Decimal.nb_digits d, "").
Proof.
  induction d; intros acc count; simpl NilEmpty.string_of_uint;
    [simpl; now rewrite N2Nat.id, Nat.add_0_r | ..];
    cbn [read_digits]; 
    match goal with |- context [digit_value 10 ?c] =>
      let v := eval vm_compute in (digit_value 10 c) in
      change (digit_value 10 c) with v end;
    cbv iota; rewrite IHd; simpl Nat.of_uint_acc; simpl Decimal.nb_digits;
    rewrite Nat.tail_mul_spec; repeat (f_equal; try lia).
Qed.

Lemma to_uint_not_nil (n : nat) : Nat.to_uint n <> Decimal.Nil.
Proof.
  pose proof (Unsigned.to_of (Nat.to_uint n)) as H.
  rewrite Unsigned.of_to in H. rewrite H. unfold Decimal.unorm.
  destruct (Decimal.nzhead (Nat.to_uint n)); discriminate.
Qed.

Lemma nb_digits_pos (d : Decimal.uint) : d <> Decimal.Nil -> 0 < Decimal.nb_digits d.
Proof. destruct d; simpl; intros H; try lia. contradiction. Qed.

Lemma decimal_to_number_integer (m : N) :
  decimal_to_number false m 0 = number_of_Z (Z.of_N m).
Proof.
  destruct m as [|p]; [reflexivity|].
  unfold decimal_to_number, number_of_Z. simpl Z.of_N.
  change (10 ^ 0)%Z with 1%Z. now rewrite Z.mul_1_r.
Qed.

Lemma unsigned_decimal_uint (d : Decimal.uint) :
  d <> Decimal.Nil ->
  unsigned_decimal false (NilEmpty.string_of_uint d)
  = number_of_nat (Nat.of_uint d).
Proof.
  intros Hd. unfold unsigned_decimal.
  assert (E : (NilEmpty.string_of_uint d =? "Infinity")%string = false).
  { destruct d; reflexivity. }
  rewrite E, read_digits_uint.
  pose proof (nb_digits_pos d Hd) as Hn.
  destruct (0 + Decimal.nb_digits d + 0 =? 0)%nat eqn:Z0;
    [apply Nat.eqb_eq in Z0; lia|].
  cbn [exponent_part]. change (0 - Z.of_nat 0)%Z with 0%Z.
  rewrite decimal_to_number_integer. unfold number_of_nat, Nat.of_uint.
  simpl N.to_nat. now rewrite nat_N_Z.
Qed.

Lemma Number_uint (d : Decimal.uint) :
  d <> Decimal.Nil ->
  Number (NilEmpty.string_of_uint d) = number_of_nat (Nat.of_uint d).
Proof.
  intros Hd. rewrite <- (unsigned_decimal_uint d Hd).
  unfold Number. rewrite (trim_decimal _ (string_of_uint_decimal d)).
  destruct d as [|d|d|d|d|d|d|d|d|d|d]; try reflexivity; try contradiction.
  destruct d; reflexivity.
Qed.

(** [Number] reads the decimal string of a natural number as that number. *)
Lemma Number_string_of_nat (n : nat) : Number (string_of_nat n) = number_of_nat n.
Proof.
  unfold string_of_nat. rewrite (Number_uint _ (to_uint_not_nil n)).
  now rewrite Unsigned.of_to.
Qed.

Lemma digits2_size (m : positive) : digits2_pos m = Pos.size m.
Proof. induction m; simpl; now rewrite ?IHm. Qed.

Lemma digits2_bound (m : positive) :
  (Zpos m < 2 ^ 53)%Z -> (Zpos (digits2_pos m) <= 53)%Z.
Proof.
  intros H. rewrite digits2_size.
  pose proof (Pos.size_le m) as L.
  assert (Hp : (2 ^ Zpos (Pos.size m) <= 2 * Zpos m)%Z).
  { rewrite <- Pos2Z.inj_pow. change (2 * Zpos m)%Z with (Zpos (m~0)). exact L. }
  destruct (Z.le_gt_cases (Zpos (Pos.size m)) 53) as [|G]; [assumption|].
  assert (2 ^ 54 <= 2 ^ Zpos (Pos.size m))%Z by (apply Z.pow_le_mono_r; lia).
  change (2 ^ 54)%Z with (2 * 2 ^ 53)%Z in *. lia.
Qed.

Lemma iter_xO_digits (k m : positive) :
  digits2_pos (Pos.iter xO m k) = (digits2_pos m + k)%positive.
Proof.
  revert m. induction k using Pos.peano_ind; intros m.
  - simpl. lia.
  - rewrite Pos.iter_succ. simpl. rewrite IHk. lia.
Qed.

Lemma iter_xO_value (k m : positive) :
  Zpos (Pos.iter xO m k) = (Zpos m * 2 ^ Zpos k)%Z.
Proof.
  revert m. induction k using Pos.peano_ind; intros m.
  - simpl. lia.
  - rewrite Pos.iter_succ, Pos2Z.inj_xO, IHk, Pos2Z.inj_succ, Z.pow_succ_r by lia. lia.
Qed.

Lemma round_aux_exact (mz : positive) (ez : Z) :
  Zpos (digits2_pos mz) = 53%Z -> (-52 <= ez <= 0)%Z ->
  binary_round_aux prec emax false (Zpos mz) ez loc_Exact = S754_finite false mz ez.
Proof.
  intros Hd He.
  assert (F : fexp prec emax (Zdigits2 (Zpos mz) + ez) = ez).
  { unfold Zdigits2. rewrite Hd. unfold fexp, emin, prec, emax. lia. }
  unfold binary_round_aux, shr_fexp.
  rewrite F, Z.sub_diag. cbn [shr shr_record_of_loc shr_m loc_of_shr_record shr_r shr_s round_nearest_even].
  rewrite F, Z.sub_diag. cbn [shr shr_record_of_loc shr_m].
  destruct (ez <=? emax - prec)%Z eqn:L; [reflexivity|].
  apply Z.leb_gt in L. unfold emax, prec in L. lia.
Qed.

Lemma number_of_pos (m : positive) :
  (Zpos m < 2 ^ 53)%Z ->
  exists mz ez, number_of_Z (Zpos m) = S754_finite false mz ez
                /\ integer_part (S754_finite false mz ez) = Pos.to_nat m.
Proof.
  intros H. pose proof (digits2_bound m H) as Hd.
  unfold number_of_Z, binary_normalize, binary_round.
  assert (F : forall d, (Zpos d <= 53)%Z -> fexp prec emax (Zpos d) = (Zpos d - 53)%Z).
  { intros d Hle. unfold fexp, emin, prec, emax. lia. }
  rewrite Z.add_0_r, (F _ Hd).
  unfold shl_align.
  destruct (Zpos (digits2_pos m) - 53 - 0)%Z as [|k|k] eqn:K; try lia.
  - exists m, 0%Z. rewrite round_aux_exact by lia. split; reflexivity.
  - exists (Pos.iter xO m k), (Zpos (digits2_pos m) - 53)%Z.
    rewrite round_aux_exact.
    + split; [reflexivity|].
      replace (Zpos (digits2_pos m) - 53)%Z with (Zneg k) by lia.
      unfold integer_part. rewrite iter_xO_value, Z.shiftr_div_pow2 by lia.
      rewrite Z.div_mul by (apply Z.pow_nonzero; lia). reflexivity.
    + rewrite iter_xO_digits. lia.
    + lia.
Qed.

Lemma integer_part_of_nat (n : nat) :
  (Z.of_nat n < 2 ^ 53)%Z -> integer_part (number_of_nat n) = n.
Proof.
  intros H. unfold number_of_nat. destruct n as [|n]; [reflexivity|].
  change (Z.of_nat (S n)) with (Zpos (Pos.of_succ_nat n)) in *.
  destruct (number_of_pos _ H) as (mz & ez & -> & ->). lia.
Qed.

Lemma number_of_nat_not_NaN (n : nat) :
  (Z.of_nat n < 2 ^ 53)%Z -> isNaN (number_of_nat n) = false.
Proof.
  intros H. unfold number_of_nat. destruct n as [|n]; [reflexivity|].
  change (Z.of_nat (S n)) with (Zpos (Pos.of_succ_nat n)) in *.
  destruct (number_of_pos _ H) as (mz & ez & -> & _). reflexivity.
Qed.

Lemma to_index_of_nat (bound n : nat) :
  (Z.of_nat n < 2 ^ 53)%Z -> to_index bound (number_of_nat n) = Nat.min bound n.
Proof.
  intros H. unfold to_index. rewrite (integer_part_of_nat n H).
  unfold number_of_nat. destruct n as [|n]; [reflexivity|].
  change (Z.of_nat (S n)) with (Zpos (Pos.of_succ_nat n)) in *.
  destruct (number_of_pos _ H) as (mz & ez & -> & _). reflexivity.
Qed.

(** Numbers that are equal have the same integer part. *)
Lemma num_eq_integer_part (x y : number) :
  num_eq x y = true -> integer_part x = integer_part y.
Proof.
  unfold num_eq, SFeqb.
  destruct x as [[]|[]| |[] m e], y as [[]|[]| |[] m' e']; simpl;
    try discriminate; try reflexivity.
  destruct (e ?= e')%Z eqn:E; try discriminate.
  apply Z.compare_eq in E. subst e'.
  destruct (Pos.compare_cont Eq m m') eqn:M; try discriminate.
  apply Pos.compare_eq in M. now subst.
Qed.

(** ** The loop of decodePayload, frame by frame *)


Section Fuel.

Variable utf8 : Utf8.
Context {W : Type}.
Variable cb : packet -> nat -> nat -> W -> W * returned.

Lemma scan_more_fuel :
  forall fuel data bt l i len w r,
    scan utf8 cb fuel data bt l i len w = Some r ->
    scan utf8 cb (S fuel) data bt l i len w = Some r.
Proof.
  induction fuel as [|fuel IH]; intros data bt l i len w r H; [discriminate H|].
  cbn [scan] in H. cbn [scan].
  destruct (i <? l)%nat; [|exact H].
  destruct (negb (charAt data i =? ":")%string); [now apply IH|].
  destruct ((len =? "")%string || loose_neq_string_number len (Number len)); [exact H|].
  destruct (loose_neq_string_number len
              (number_of_nat (String.length (substr data (i + 1) (Number len)))));
    [exact H|].
  destruct (0 <? String.length (substr data (i + 1) (Number len)))%nat;
    [|now apply IH].
  destruct (decodePacket utf8 (Text (substr data (i + 1) (Number len))) bt false)
    as [p|e]; [|exact H].
  destruct (same_as_err p); [exact H|].
  destruct (cb p (index_plus i (Number len)) l w) as [w' []]; [exact H | now apply IH].
Qed.

Lemma scan_fuel_le (fuel fuel' : nat) data bt l i len w r :
  fuel <= fuel' ->
  scan utf8 cb fuel data bt l i len w = Some r ->
  scan utf8 cb fuel' data bt l i len w = Some r.
Proof.
  intros Hle. induction Hle as [|f Hle IH]; [trivial|]. intros H0. apply scan_more_fuel. auto.
Qed.

(** Enough to run the loop with some fuel to know what [decodePayload] returns. *)
Lemma decodePayload_by_scan (s : string) (bt : option string) (w : W) (r : completion W) (fuel : nat) :
  0 < String.length s ->
  scan utf8 cb fuel s bt (String.length s) 0 "" w = Some r ->
  decodePayload utf8 cb (Text s) bt w = Some r.
Proof.
  intros Hs H.
  assert (D : decodePayload utf8 cb (Text s) bt w
              = scan utf8 cb (S (String.length s)) s bt (String.length s) 0 "" w).
  { destruct s; [inversion Hs | reflexivity]. }
  rewrite D.
  destruct (scan_returns utf8 cb (S (String.length s)) s bt (String.length s) 0 "" w)
    as [w' Hw]; [lia|].
  rewrite Hw.
  pose proof (scan_fuel_le _ (Nat.max fuel (S (String.length s))) _ _ _ _ _ _ _
                (Nat.le_max_l _ _) H) as H1.
  pose proof (scan_fuel_le _ (Nat.max fuel (S (String.length s))) _ _ _ _ _ _ _
                (Nat.le_max_r _ _) Hw) as H2.
  congruence.
Qed.

Lemma scan_gathers (data : string) (bt : option string) (rest : string) (fuel : nat) (w : W) :
  forall suf pre acc,
    has_colon suf = false ->
    data = pre ++ suf ++ rest ->
    scan utf8 cb (String.length suf + fuel) data bt (String.length data)
      (String.length pre) acc w
    = scan utf8 cb fuel data bt (String.length data)
        (String.length pre + String.length suf) (acc ++ suf) w.
Proof.
  induction suf as [|c suf IH]; intros pre acc Hc Hd.
  - simpl. now rewrite Nat.add_0_r, append_empty_r.
  - simpl in Hc. apply orb_false_elim in Hc. destruct Hc as [Hc Hs].
    change (String.length (String c suf) + fuel) with (S (String.length suf + fuel)).
    cbn [scan].
    assert (L : (String.length pre <? String.length data)%nat = true).
    { apply Nat.ltb_lt. rewrite Hd, length_append. simpl. lia. }
    rewrite L.
    assert (C : charAt data (String.length pre) = String c "").
    { rewrite Hd. apply (charAt_append pre c). }
    rewrite C.
    assert (N : (String c "" =? ":")%string = false).
    { simpl. now rewrite Hc. }
    rewrite N. cbn [negb].
    replace (String.length pre + 1) with (String.length (pre ++ String c ""))
      by (rewrite length_append; reflexivity).
    rewrite (IH (pre ++ String c "") (acc ++ String c "") Hs).
    + rewrite length_append, !append_assoc. simpl.
      now rewrite <- Nat.add_assoc.
    + rewrite Hd, append_assoc. reflexivity.
Qed.

End Fuel.

Lemma decimal_no_colon (s : string) : all_decimal s = true -> has_colon s = false.
Proof.
  induction s as [|c s IH]; [reflexivity|]. simpl. intros H.
  apply andb_true_iff in H. destruct H as [Hc Hs]. rewrite (IH Hs), orb_false_r.
  destruct (Ascii.eqb_spec c ":") as [->|]; [discriminate Hc | reflexivity].
Qed.

Lemma string_of_nat_no_colon (n : nat) : has_colon (string_of_nat n) = false.
Proof. apply decimal_no_colon, string_of_uint_decimal. Qed.

Lemma string_of_nat_length (n : nat) : 0 < String.length (string_of_nat n).
Proof.
  unfold string_of_nat. pose proof (to_uint_not_nil n) as H.
  destruct (Nat.to_uint n); simpl; try lia. contradiction.
Qed.

Lemma substring_append (pre m rest : string) :
  String.substring (String.length pre) (String.length m) (pre ++ m ++ rest) = m.
Proof.
  induction pre as [|c pre IH]; simpl; [|exact IH].
  induction m as [|c m IHm]; simpl.
  - destruct rest; reflexivity.
  - now rewrite IHm.
Qed.

Lemma substring_to_end (pre r : string) (k : nat) :
  String.length r <= k -> String.substring (String.length pre) k (pre ++ r) = r.
Proof.
  induction pre as [|c pre IH]; simpl; [|exact IH].
  revert k. induction r as [|c r IHr]; intros k Hk; simpl.
  - destruct k; reflexivity.
  - destruct k; simpl in Hk; [lia|]. rewrite IHr by lia. reflexivity.
Qed.

Lemma frame_length (m : string) :
  String.length (frame m)
  = String.length (string_of_nat (String.length m)) + 1 + String.length m.
Proof. unfold frame. rewrite !length_append. simpl. lia. Qed.

Section Frame.

Variable utf8 : Utf8.
Context {W : Type}.
Variable cb : packet -> nat -> nat -> W -> W * returned.

Lemma scan_frame (data : string) (bt : option string) (pre m rest : string)
    (fuel : nat) (w : W) :
  data = pre ++ frame m ++ rest ->
  small m ->
  scan utf8 cb (String.length (string_of_nat (String.length m)) + S fuel) data bt
    (String.length data) (String.length pre) "" w
  = if (String.length m =? 0)%nat
    then scan utf8 cb fuel data bt (String.length data)
           (String.length pre + String.length (frame m)) "" w
    else
      match decodePacket utf8 (Text m) bt false with
      | Throw e => Some (Throw e)
      | Normal p =>
          if same_as_err p then Some (Normal (fst (cb err 0 1 w)))
          else
            let '(w', ret) :=
              cb p (String.length pre + String.length (frame m) - 1)
                (String.length data) w in
            match ret with
            | ReturnedFalse => Some (Normal w')
            | ReturnedOther =>
                scan utf8 cb fuel data bt (String.length data)
                  (String.length pre + String.length (frame m)) "" w'
            end
      end.
Proof.
  intros Hd Hm.
  set (n := String.length m) in *.
  set (digits := string_of_nat n) in *.
  assert (Hd' : data = pre ++ digits ++ String ":" (m ++ rest)).
  { rewrite Hd. unfold frame. fold n. fold digits. now rewrite !append_assoc. }
  rewrite (scan_gathers utf8 cb data bt (String ":" (m ++ rest)) (S fuel) w digits pre ""
             (string_of_nat_no_colon n) Hd').
  change ("" ++ digits) with digits.
  assert (Hl : String.length data
               = String.length pre + String.length digits + 1 + n + String.length rest).
  { rewrite Hd'. rewrite !length_append. simpl. rewrite length_append. fold n. lia. }
  cbn [scan].
  assert (L : (String.length pre + String.length digits <? String.length data)%nat = true).
  { apply Nat.ltb_lt. lia. }
  rewrite L.
  assert (C : charAt data (String.length pre + String.length digits) = ":").
  { rewrite Hd', <- length_append, <- append_assoc. apply charAt_append. }
  rewrite C. change (negb (":" =? ":")%string) with false. cbv iota.
  rewrite length_test.
  assert (Hn : Number digits = number_of_nat n) by apply Number_string_of_nat.
  rewrite Hn, (number_of_nat_not_NaN n Hm), orb_false_r.
  assert (E : (digits =? "")%string = false).
  { pose proof (string_of_nat_length n) as P. fold digits in P.
    destruct digits; [inversion P | reflexivity]. }
  rewrite E.
  assert (M : substr data (String.length pre + String.length digits + 1) (number_of_nat n) = m).
  { unfold substr. rewrite (to_index_of_nat _ n Hm).
    replace (Nat.min (String.length data) n) with (String.length m) by (fold n; lia).
    rewrite Hd'.
    replace (String.length pre + String.length digits + 1)
      with (String.length ((pre ++ digits) ++ ":")) by (rewrite !length_append; simpl; lia).
    replace (pre ++ digits ++ String ":" (m ++ rest)) with (((pre ++ digits) ++ ":") ++ m ++ rest)
      by (rewrite !append_assoc; reflexivity).
    apply substring_append. }
  rewrite M. fold n.
  unfold loose_neq_string_number, loose_eq_string_number at 1.
  rewrite Hn, num_eq_self, (number_of_nat_not_NaN n Hm). cbn [negb].
  unfold index_plus. rewrite (integer_part_of_nat n Hm).
  rewrite (frame_length m). fold n. fold digits.
  replace (String.length pre + String.length digits + n + 1)
    with (String.length pre + (String.length digits + 1 + n)) by lia.
  replace (String.length pre + (String.length digits + 1 + n) - 1)
    with (String.length pre + String.length digits + n) by lia.
  destruct n as [|n']; reflexivity.
Qed.

End Frame.


Lemma frames_app (a b : list string) : frames (a ++ b) = frames a ++ frames b.
Proof.
  induction a as [|m a IH]; simpl; [reflexivity|]. now rewrite IH, append_assoc.
Qed.

Section ScanFrames.

Variable utf8 : Utf8.
Context {W : Type}.
Variable cb : packet -> nat -> nat -> W -> W * returned.

Lemma scan_frames (data : string) (bt : option string) (rest : string) (after : W -> W) :
  forall ms pre w,
    data = pre ++ frames ms ++ rest ->
    Forall small ms ->
    (forall w', exists fuel,
        scan utf8 cb fuel data bt (String.length data)
          (String.length pre + String.length (frames ms)) "" w'
        = Some (Normal (after w'))) ->
    exists fuel,
      scan utf8 cb fuel data bt (String.length data) (String.length pre) "" w
      = Some (Normal (run_frames utf8 cb bt (String.length data) ms (String.length pre) after w)).
Proof.
  induction ms as [|m ms IH]; intros pre w Hd Hs Hafter.
  - simpl in *. rewrite Nat.add_0_r in Hafter. apply Hafter.
  - inversion Hs as [|? ? Hm Hms]; subst x l.
    simpl frames in *.
    assert (Hd' : data = (pre ++ frame m) ++ frames ms ++ rest)
      by (rewrite Hd, !append_assoc; reflexivity).
    assert (Hd'' : data = pre ++ frame m ++ (frames ms ++ rest))
      by (rewrite Hd, !append_assoc; reflexivity).
    assert (K : forall w1, exists fuel,
               scan utf8 cb fuel data bt (String.length data)
                 (String.length pre + String.length (frame m)) "" w1
               = Some (Normal (run_frames utf8 cb bt (String.length data) ms
                                 (String.length pre + String.length (frame m)) after w1))).
    { intros w1. rewrite <- length_append. apply (IH (pre ++ frame m) w1 Hd' Hms).
      intros w'. destruct (Hafter w') as [fuel Hf]. exists fuel.
      rewrite <- Hf. f_equal. rewrite !length_append. lia. }
    cbn [run_frames].
    pose proof (fun fuel => scan_frame utf8 cb data bt pre m (frames ms ++ rest) fuel w Hd'' Hm)
      as Step.
    destruct (String.length m =? 0)%nat.
    + destruct (K w) as [fuel Hf]. eexists. rewrite Step. exact Hf.
    + destruct (decodePacket_returns utf8 (Text m) bt false) as [p Hp].
      rewrite Hp in *.
      destruct (same_as_err p) eqn:Hsame.
      * exists (String.length (string_of_nat (String.length m)) + 1).
        rewrite Step, ?Hp, ?Hsame. reflexivity.
      * destruct (cb p (String.length pre + String.length (frame m) - 1)
                    (String.length data) w) as [w1 []] eqn:Hcb.
        -- exists (String.length (string_of_nat (String.length m)) + 1).
           rewrite Step, ?Hp, ?Hsame, ?Hcb. reflexivity.
        -- destruct (K w1) as [fuel Hf]. eexists.
           rewrite Step, ?Hp, ?Hsame, ?Hcb. exact Hf.
Qed.

(** The end of the stream after the last frame: a rest without delimiter. *)
Lemma scan_tail (data : string) (bt : option string) (pre tail : string) (w : W) :
  data = pre ++ tail ->
  has_colon tail = false ->
  exists fuel,
    scan utf8 cb fuel data bt (String.length data) (String.length pre) "" w
    = Some (Normal (if (tail =? "")%string then w else fst (cb err 0 1 w))).
Proof.
  intros Hd Hc. exists (String.length tail + 1).
  assert (Hd' : data = pre ++ tail ++ "") by now rewrite append_empty_r.
  rewrite (scan_gathers utf8 cb data bt "" 1 w tail pre "" Hc Hd').
  change ("" ++ tail) with tail. cbn [scan].
  assert (L : (String.length pre + String.length tail <? String.length data)%nat = false).
  { apply Nat.ltb_ge. rewrite Hd, length_append. lia. }
  rewrite L. destruct (tail =? "")%string; reflexivity.
Qed.

(** A frame that declares more than is left. *)
Lemma scan_truncated (data : string) (bt : option string) (pre rest : string)
    (n : nat) (w : W) :
  data = pre ++ string_of_nat n ++ ":" ++ rest ->
  String.length rest < n ->
  (Z.of_nat n < 2 ^ 53)%Z ->
  exists fuel,
    scan utf8 cb fuel data bt (String.length data) (String.length pre) "" w
    = Some (Normal (fst (cb err 0 1 w))).
Proof.
  intros Hd Hr Hn. set (digits := string_of_nat n) in *.
  exists (String.length digits + 1).
  rewrite (scan_gathers utf8 cb data bt (":" ++ rest) 1 w digits pre ""
             (string_of_nat_no_colon n) Hd).
  change ("" ++ digits) with digits.
  assert (Hl : String.length data
               = String.length pre + String.length digits + 1 + String.length rest).
  { rewrite Hd. rewrite !length_append. simpl. lia. }
  cbn [scan].
  assert (L : (String.length pre + String.length digits <? String.length data)%nat = true).
  { apply Nat.ltb_lt. lia. }
  rewrite L.
  assert (C : charAt data (String.length pre + String.length digits) = ":").
  { rewrite Hd, <- length_append, <- append_assoc. apply charAt_append. }
  rewrite C. change (negb (":" =? ":")%string) with false. cbv iota.
  rewrite length_test.
  assert (HN : Number digits = number_of_nat n) by apply Number_string_of_nat.
  rewrite HN, (number_of_nat_not_NaN n Hn), orb_false_r.
  assert (E : (digits =? "")%string = false).
  { pose proof (string_of_nat_length n) as P. fold digits in P.
    destruct digits; [inversion P | reflexivity]. }
  rewrite E.
  assert (M : substr data (String.length pre + String.length digits + 1) (number_of_nat n) = rest).
  { unfold substr. rewrite (to_index_of_nat _ n Hn), Hd.
    replace (String.length pre + String.length digits + 1)
      with (String.length ((pre ++ digits) ++ ":")) by (rewrite !length_append; simpl; lia).
    replace (pre ++ digits ++ ":" ++ rest) with (((pre ++ digits) ++ ":") ++ rest)
      by (rewrite !append_assoc; reflexivity).
    apply substring_to_end.
    rewrite !length_append. simpl. lia. }
  rewrite M.
  assert (Q : loose_neq_string_number digits (number_of_nat (String.length rest)) = true).
  { unfold loose_neq_string_number, loose_eq_string_number. rewrite HN.
    destruct (num_eq (number_of_nat n) (number_of_nat (String.length rest))) eqn:Q;
      [|reflexivity].
    apply num_eq_integer_part in Q.
    rewrite !integer_part_of_nat in Q by lia. lia. }
  rewrite Q. reflexivity.
Qed.

End ScanFrames.


Section Top.

Variable utf8 : Utf8.
Context {W : Type}.
Variable cb : packet -> nat -> nat -> W -> W * returned.

(** X8: on a stream made of the frames of messages shorter than 2^53,
    followed by a rest without delimiter, [decodePayload] does what
    [run_frames] tells frame by frame, and at the end delivers the error
    packet when the rest is not empty. *)
Theorem decodePayload_frames (bt : option string) (ms : list string) (tail : string) (w : W) :
  Forall small ms ->
  has_colon tail = false ->
  0 < String.length (frames ms ++ tail) ->
  decodePayload utf8 cb (Text (frames ms ++ tail)) bt w
  = Some (Normal (run_frames utf8 cb bt (String.length (frames ms ++ tail)) ms 0
                    (fun w' => if (tail =? "")%string then w' else fst (cb err 0 1 w')) w)).
Proof.
  intros Hs Hc Hl.
  destruct (scan_frames utf8 cb (frames ms ++ tail) bt tail
              (fun w' => if (tail =? "")%string then w' else fst (cb err 0 1 w'))
              ms "" w eq_refl Hs) as [fuel Hf].
  - intros w'. apply (scan_tail utf8 cb (frames ms ++ tail) bt (frames ms) tail w' eq_refl Hc).
  - exact (decodePayload_by_scan utf8 cb _ bt w _ fuel Hl Hf).
Qed.

End Top.

Section Logs.

Variable utf8 : Utf8.
Context {W : Type}.
Variable cb : packet -> nat -> nat -> W -> W * returned.
Variable bt : option string.
Variable l : nat.

Lemma run_frames_logged (after_ : list call * W -> list call * W) :
  never_false cb ->
  forall ms pos log w,
    Forall (decodable utf8) ms ->
    exists w',
      run_frames utf8 (logged cb) bt l ms pos after_ (log, w)
      = after_ ((log ++ frame_calls utf8 bt l ms pos)%list, w').
Proof.
  intros Hcb. induction ms as [|m ms IH]; intros pos log w Hv.
  - exists w. simpl. now rewrite app_nil_r.
  - inversion Hv as [|? ? Hm Hms]; subst.
    cbn [run_frames frame_calls].
    destruct (String.length m =? 0)%nat eqn:Z; [apply IH; assumption|].
    destruct Hm as [->|Hm]; [discriminate Z|].
    destruct (decodePacket_fails_or_not utf8 (Text m) bt false) as (p & Hp & Hq).
    rewrite Hm in Hq. destruct Hq as [Hq _].
    unfold packet_of_text. rewrite Hp, Hq.
    unfold logged at 1. cbn [fst snd].
    pose proof (Hcb p (pos + String.length (frame m) - 1) l w) as R.
    destruct (cb p (pos + String.length (frame m) - 1) l w) as [w1 r]. simpl in R. subst r.
    destruct (IH (pos + String.length (frame m))
                 (log ++ [Call p (pos + String.length (frame m) - 1) l ReturnedOther])%list
                 w1 Hms) as [w' Hw'].
    exists w'. rewrite Hw', <- app_assoc. reflexivity.
Qed.

End Logs.


Section CallsFrames.

Variable utf8 : Utf8.
Context {W : Type}.
Variable cb : packet -> nat -> nat -> W -> W * returned.

Lemma calls_after_frames (bt : option string) (ms : list string) (rest : string)
    (after_ : list call * W -> list call * W) (w : W) :
  never_false cb ->
  Forall small ms ->
  Forall (decodable utf8) ms ->
  0 < String.length (frames ms ++ rest) ->
  (forall st, exists fuel,
      scan utf8 (logged cb) fuel (frames ms ++ rest) bt (String.length (frames ms ++ rest))
        (String.length (frames ms)) "" st
      = Some (Normal (after_ st))) ->
  exists w',
    calls utf8 cb (Text (frames ms ++ rest)) bt w
    = Some (fst (after_ (frame_calls utf8 bt (String.length (frames ms ++ rest)) ms 0, w'))).
Proof.
  intros Hcb Hs Hv Hl Hafter.
  destruct (scan_frames utf8 (logged cb) (frames ms ++ rest) bt rest after_
              ms "" ([], w) eq_refl Hs Hafter) as [fuel Hf].
  pose proof (decodePayload_by_scan utf8 (logged cb) _ bt ([], w) _ fuel Hl Hf) as D.
  destruct (run_frames_logged utf8 cb bt (String.length (frames ms ++ rest)) after_ Hcb
              ms 0 [] w Hv) as [w' Hw'].
  exists w'. unfold calls. change (String.length "") with 0 in D.
  rewrite D, Hw'. reflexivity.
Qed.

Lemma logged_err_never_false (log : list call) (w : W) :
  never_false cb ->
  fst (fst (logged cb err 0 1 (log, w))) = (log ++ [err_call])%list.
Proof.
  intros Hcb. rewrite logged_err_call. unfold err_call. now rewrite Hcb.
Qed.

(** The calls for well-formed frames and a rest without delimiter. *)
Lemma calls_of_frames (bt : option string) (ms : list string)
    (tail : string) (w : W) :
  never_false cb ->
  Forall small ms ->
  Forall (decodable utf8) ms ->
  has_colon tail = false ->
  0 < String.length (frames ms ++ tail) ->
  calls utf8 cb (Text (frames ms ++ tail)) bt w
  = Some (frame_calls utf8 bt (String.length (frames ms ++ tail)) ms 0
          ++ (if (tail =? "")%string then [] else [err_call]))%list.
Proof.
  intros Hcb Hs Hv Hc Hl.
  destruct (calls_after_frames bt ms tail
              (fun st => if (tail =? "")%string then st else fst (logged cb err 0 1 st))
              w Hcb Hs Hv Hl) as [w' ->].
  - intros [log w0].
    apply (scan_tail utf8 (logged cb) (frames ms ++ tail) bt (frames ms) tail (log, w0)
             eq_refl Hc).
  - destruct (tail =? "")%string; simpl fst.
    + now rewrite app_nil_r.
    + now rewrite logged_err_never_false.
Qed.

(** X9: on the frames of decodable messages shorter than 2^53, with a
    callback that never returns [false], [decodePayload] calls the
    callback once for each message that is not empty, in order, with its
    packet, the position of the end of its frame and the length of the
    stream; a rest without delimiter behind the frames adds the error
    call, and nothing else does. *)
Theorem decodePayload_frames_calls (bt : option string) (ms : list string)
    (tail : string) (w : W) :
  never_false cb ->
  Forall small ms ->
  Forall (decodable utf8) ms ->
  has_colon tail = false ->
  0 < String.length (frames ms ++ tail) ->
  calls utf8 cb (Text (frames ms ++ tail)) bt w
  = Some (frame_calls utf8 bt (String.length (frames ms ++ tail)) ms 0
          ++ (if (tail =? "")%string then [] else [err_call]))%list.
Proof. exact (calls_of_frames bt ms tail w). Qed.

(** X10: a frame whose message does not decode to a packet ends the
    run: the packets of the frames before it are delivered, then the
    error packet, and what follows the frame is not looked at. *)
Theorem decodePayload_bad_packet_aborts (bt : option string) (ms : list string)
    (m rest : string) (w : W) :
  never_false cb ->
  Forall small ms -> small m ->
  Forall (decodable utf8) ms ->
  m <> "" ->
  decode_fails utf8 (Text m) false = true ->
  calls utf8 cb (Text (frames ms ++ frame m ++ rest)) bt w
  = Some (frame_calls utf8 bt (String.length (frames ms ++ frame m ++ rest)) ms 0
          ++ [err_call])%list.
Proof.
  intros Hcb Hs Hm Hv Hne Hf.
  assert (Hl : 0 < String.length (frames ms ++ frame m ++ rest)).
  { rewrite !length_append, frame_length. lia. }
  destruct (calls_after_frames bt ms (frame m ++ rest)
              (fun st => fst (logged cb err 0 1 st)) w Hcb Hs Hv Hl) as [w' ->].
  - intros [log w0].
    exists (String.length (string_of_nat (String.length m)) + 1).
    rewrite (scan_frame utf8 (logged cb) (frames ms ++ frame m ++ rest) bt (frames ms) m rest
               0 (log, w0) eq_refl Hm).
    destruct (String.length m =? 0)%nat eqn:Z.
    { apply Nat.eqb_eq in Z. destruct m; [contradiction | discriminate Z]. }
    destruct (decodePacket_fails_or_not utf8 (Text m) bt false) as (p & Hp & Hq).
    rewrite Hf in Hq. subst p. rewrite Hp. reflexivity.
  - simpl fst. now rewrite logged_err_never_false.
Qed.

(** X11: a frame that declares a length [n] below 2^53 with fewer than
    [n] units left in the stream ends the run with the error call, after
    the packets of the frames before it. *)
Theorem decodePayload_truncated_frame (bt : option string) (ms : list string)
    (n : nat) (rest : string) (w : W) :
  never_false cb ->
  Forall small ms ->
  Forall (decodable utf8) ms ->
  String.length rest < n ->
  (Z.of_nat n < 2 ^ 53)%Z ->
  calls utf8 cb (Text (frames ms ++ string_of_nat n ++ ":" ++ rest)) bt w
  = Some (frame_calls utf8 bt
            (String.length (frames ms ++ string_of_nat n ++ ":" ++ rest)) ms 0
          ++ [err_call])%list.
Proof.
  intros Hcb Hs Hv Hr Hn.
  assert (Hl : 0 < String.length (frames ms ++ string_of_nat n ++ ":" ++ rest)).
  { rewrite !length_append. simpl. lia. }
  destruct (calls_after_frames bt ms (string_of_nat n ++ ":" ++ rest)
              (fun st => fst (logged cb err 0 1 st)) w Hcb Hs Hv Hl) as [w' ->].
  - intros [log w0].
    apply (scan_truncated utf8 (logged cb) _ bt (frames ms) rest n (log, w0) eq_refl Hr Hn).
  - simpl fst. now rewrite logged_err_never_false.
Qed.

End CallsFrames.

(** X12: when the callback returns [false] for the packet of the first
    frame, that call is the only one, whatever follows the frame in the
    stream. *)
Theorem decodePayload_false_hides_rest (utf8 : Utf8) (W : Type)
    (cb : packet -> nat -> nat -> W -> W * returned) (bt : option string)
    (m rest : string) (w : W) :
  small m ->
  m <> "" ->
  decode_fails utf8 (Text m) false = false ->
  snd (cb (packet_of_text utf8 bt m) (String.length (frame m) - 1)
         (String.length (frame m ++ rest)) w) = ReturnedFalse ->
  calls utf8 cb (Text (frame m ++ rest)) bt w
  = Some [Call (packet_of_text utf8 bt m) (String.length (frame m) - 1)
            (String.length (frame m ++ rest)) ReturnedFalse].
Proof.
  intros Hm Hne Hf Hcb.
  assert (Hl : 0 < String.length (frame m ++ rest)).
  { rewrite length_append, frame_length. lia. }
  pose proof (scan_frame utf8 (logged cb) (frame m ++ rest) bt "" m rest 0 ([], w)
                eq_refl Hm) as Hstep.
  destruct (String.length m =? 0)%nat eqn:Z.
  { apply Nat.eqb_eq in Z. destruct m; [contradiction | discriminate Z]. }
  destruct (decodePacket_fails_or_not utf8 (Text m) bt false) as (p & Hp & Hq).
  rewrite Hf in Hq. destruct Hq as [Hq _].
  unfold packet_of_text in *. rewrite Hp in *. rewrite Hq in Hstep.
  cbn [String.length Nat.add] in Hstep.
  assert (L : logged cb p (String.length (frame m) - 1) (String.length (frame m ++ rest))
                ([], w)
              = ([Call p (String.length (frame m) - 1) (String.length (frame m ++ rest))
                    ReturnedFalse],
                 fst (cb p (String.length (frame m) - 1)
                        (String.length (frame m ++ rest)) w),
                 ReturnedFalse)).
  { unfold logged. cbn [fst snd app].
    destruct (cb p (String.length (frame m) - 1) (String.length (frame m ++ rest)) w)
      as [w1 r]. simpl in Hcb. subst r. reflexivity. }
  rewrite L in Hstep.
  unfold calls.
  rewrite (decodePayload_by_scan utf8 (logged cb) _ bt ([], w) _ _ Hl Hstep).
  reflexivity.
Qed.

Lemma frame_calls_app (utf8 : Utf8) (bt : option string) (l : nat) (b : list string) :
  forall a pos,
    frame_calls utf8 bt l (a ++ b) pos
    = (frame_calls utf8 bt l a pos
       ++ frame_calls utf8 bt l b (pos + String.length (frames a)))%list.
Proof.
  induction a as [|m a IH]; intros pos.
  - simpl. now rewrite Nat.add_0_r.
  - cbn [app frame_calls frames]. rewrite IH, length_append, Nat.add_assoc.
    destruct (String.length m =? 0)%nat; reflexivity.
Qed.

Lemma frame_calls_index (utf8 : Utf8) (bt : option string) (l : nat) :
  forall ms pos,
    Forall (fun c => call_index c + 1 <= pos + String.length (frames ms))
      (frame_calls utf8 bt l ms pos).
Proof.
  induction ms as [|m ms IH]; intros pos; [constructor|].
  cbn [frame_calls frames]. rewrite length_append.
  assert (T : Forall (fun c => call_index c + 1
                               <= pos + (String.length (frame m) + String.length (frames ms)))
                (frame_calls utf8 bt l ms (pos + String.length (frame m)))).
  { apply Forall_impl with (2 := IH (pos + String.length (frame m))).
    intros c Hc. lia. }
  destruct (String.length m =? 0)%nat; [exact T|].
  constructor; [|exact T].
  cbn [call_index]. rewrite frame_length. lia.
Qed.

(** X13: on the frames of decodable messages, the last of them not
    empty, the last call has the index [total - 1] and every call before
    it a smaller index: [index + 1 = total] tells the last packet. *)
Theorem decodePayload_last_index (utf8 : Utf8) (W : Type)
    (cb : packet -> nat -> nat -> W -> W * returned) (bt : option string)
    (ms : list string) (m : string) (w : W) :
  never_false cb ->
  Forall small (ms ++ [m]) ->
  Forall (decodable utf8) (ms ++ [m]) ->
  m <> "" ->
  exists log total,
    total = String.length (frames (ms ++ [m]))
    /\ calls utf8 cb (Text (frames (ms ++ [m]))) bt w
       = Some (log ++ [Call (packet_of_text utf8 bt m) (total - 1) total ReturnedOther])%list
    /\ Forall (fun c => call_index c + 1 < total) log.
Proof.
  intros Hcb Hs Hv Hne.
  set (total := String.length (frames (ms ++ [m]))).
  assert (Ht : total = String.length (frames ms) + String.length (frame m)).
  { unfold total. rewrite frames_app, length_append. cbn [frames].
    now rewrite append_empty_r. }
  assert (Hl : 0 < String.length (frames (ms ++ [m]) ++ "")).
  { rewrite append_empty_r. fold total. rewrite Ht, frame_length. lia. }
  pose proof (calls_of_frames utf8 cb bt (ms ++ [m]) "" w Hcb Hs Hv eq_refl Hl)
    as D.
  rewrite append_empty_r, app_nil_r in D. fold total in D.
  rewrite frame_calls_app in D. cbn [frame_calls Nat.add] in D.
  destruct (String.length m =? 0)%nat eqn:Z.
  { apply Nat.eqb_eq in Z. destruct m; [contradiction | discriminate Z]. }
  exists (frame_calls utf8 bt total ms 0), total.
  split; [reflexivity|]. split.
  - rewrite D, Ht. reflexivity.
  - apply Forall_impl with (2 := frame_calls_index utf8 bt total ms 0).
    intros c Hc. rewrite Ht, frame_length. lia.
Qed.


(** ** map and encodePayload *)


Section MapSync.

Context {A W : Type}.
Variable each : A -> (string -> @action W) -> @action W.
Variable f : A -> string.
Hypothesis each_sync : forall el k st, each el k st = k (f el) st.
Variable done : option (list (option string)) -> W -> completion W.

Lemma array_set_hole (pre : list (option string)) (rest : list (option string)) (v : string) :
  array_set (pre ++ None :: rest) (List.length pre) v = (pre ++ Some v :: rest)%list.
Proof. induction pre as [|x pre IH]; simpl; [reflexivity | now rewrite IH]. Qed.

Lemma map_loop_sync :
  forall rest pre w,
    rest <> [] ->
    map_loop each (next done) (List.length pre) rest
      ({| result := pre ++ repeat None (List.length rest); count := List.length rest |}, w)
    = bind (done (Some (pre ++ List.map (fun el => Some (f el)) rest)%list) w)
        (fun w' => Normal ({| result := pre ++ List.map (fun el => Some (f el)) rest;
                              count := 0 |}, w')).
Proof.
  induction rest as [|el rest IH]; intros pre w Hne; [contradiction|].
  cbn [map_loop]. unfold eachWithIndex. rewrite each_sync.
  cbn [result count List.length repeat].
  rewrite array_set_hole. unfold next at 1. cbn [count result].
  destruct rest as [|el' rest'].
  - cbn [List.length Nat.eqb repeat List.map]. 
    destruct (done (Some (pre ++ [Some (f el)])%list) w); reflexivity.
  - cbn [List.length Nat.eqb bind].
    assert (Hne' : el' :: rest' <> []) by discriminate.
    pose proof (IH (pre ++ [Some (f el)])%list w Hne') as G.
    rewrite length_app, <- !app_assoc in G.
    cbn [List.length app] in G. rewrite Nat.add_1_r in G.
    exact G.
Qed.

(** [map] hands [done] the results in the order of the array, once. *)
Lemma map_results (ary : list A) (w : W) :
  ary <> [] ->
  map ary each done w = done (Some (List.map (fun el => Some (f el)) ary)) w.
Proof.
  intros Hne. unfold map. destruct ary as [|el ary]; [contradiction|].
  assert (Hne' : el :: ary <> []) by discriminate.
  pose proof (map_loop_sync (el :: ary) [] w Hne') as G.
  cbn [List.length app] in G. cbn [List.length]. rewrite G.
  destruct (done _ w); reflexivity.
Qed.

(** X1: [map], with an [each] that completes at once with [f el], calls
    [done] once, with the results [f el] in the order of the array. *)
Theorem map_in_order (ary : list A) (w : W) :
  ary <> [] ->
  map ary each done w = done (Some (List.map (fun el => Some (f el)) ary)) w.
Proof. exact (map_results ary w). Qed.

End MapSync.

Lemma join_frames (ms : list string) :
  join (List.map (fun m => Some (frame m)) ms) = frames ms.
Proof. induction ms as [|m ms IH]; simpl; [reflexivity | now rewrite IH]. Qed.

Lemma encodePacket_encoded {R : Type} (utf8 : Utf8) (p : packet) (sb : bool)
    (callback : value -> R) :
  encodePacket utf8 p sb false callback = callback (Text (encoded utf8 p)).
Proof. unfold encoded, encodePacket. destruct (data p); reflexivity. Qed.

(** What [encodePayload] hands its callback. *)
Lemma encodePayload_stream (utf8 : Utf8) (W : Type) (ps : list packet)
    (supportsBinary : bool) (callback : string -> W -> W) (w : W) :
  encodePayload utf8 ps supportsBinary callback w
  = Normal (callback (match ps with
                      | [] => "0:"
                      | _ => frames (List.map (encoded utf8) ps)
                      end) w).
Proof.
  unfold encodePayload. destruct ps as [|p ps]; [reflexivity|].
  cbn [List.length Nat.eqb].
  assert (Hsync : forall el (k : string -> @action W) st,
             encodeOne utf8 (hasBinary (p :: ps)) supportsBinary el k st
             = k (frame (encoded utf8 el)) st).
  { intros el k st. unfold encodeOne. rewrite encodePacket_encoded. reflexivity. }
  assert (Hne : p :: ps <> []) by discriminate.
  rewrite (map_results _ (fun p => frame (encoded utf8 p)) Hsync _ (p :: ps) w Hne).
  rewrite <- join_frames, List.map_map. reflexivity.
Qed.

(** X2: [encodePayload] calls its callback once: with [0:] for no
    packets, and else with the frames, length and delimiter and encoded
    packet, of the packets in their order; the binary support declared
    changes nothing. *)
Theorem encodePayload_frames (utf8 : Utf8) (W : Type) (ps : list packet)
    (supportsBinary : bool) (callback : string -> W -> W) (w : W) :
  encodePayload utf8 ps supportsBinary callback w
  = Normal (callback (match ps with
                      | [] => "0:"
                      | _ => frames (List.map (encoded utf8) ps)
                      end) w).
Proof. exact (encodePayload_stream utf8 W ps supportsBinary callback w). Qed.

(** ** Round trips *)

(** The code of a valid type, as a string, is the digit that names it. *)
Lemma type_code_digit (p : packet) :
  valid_type p ->
  exists c, type_of_digit c = type p
            /\ is_decimal_digit c = true
            /\ String_of_code (get_property packets (property_key (type p)))
               = String c "".
Proof.
  intros (ty & Hty & Hin). rewrite Hty. cbn [property_key].
  simpl in Hin.
  decompose [or] Hin; try contradiction; subst ty;
    match goal with
    | |- context [String_of_code ?x] =>
        let v := eval vm_compute in (String_of_code x) in
        change (String_of_code x) with v;
        match v with String ?c _ => exists c end
    end; repeat split.
Qed.

(** The encoded form of a packet of a valid type: the type digit, then
    the data as a string. *)
Lemma encoded_valid (utf8 : Utf8) (p : packet) :
  valid_type p ->
  exists c, type_of_digit c = type p
            /\ encoded utf8 p = String c (match data p with
                                          | Undefined => ""
                                          | d => String_of d
                                          end).
Proof.
  intros Hv. destruct (type_code_digit p Hv) as (c & Hc & _ & E).
  exists c. split; [exact Hc|].
  unfold encoded, encodePacket. rewrite E. destruct (data p); reflexivity.
Qed.

(** Decoding what [encodePacket] made of a packet of a valid type. *)
Lemma decode_encoded (utf8 : Utf8) (bt : option string) (p : packet)
    (supportsBinary : bool) :
  valid_type p ->
  encodePacket utf8 p supportsBinary false (fun wire => decodePacket utf8 wire bt false)
  = Normal (received p).
Proof.
  intros Hv. rewrite encodePacket_encoded.
  destruct (encoded_valid utf8 p Hv) as (c & Hc & ->).
  rewrite decodePacket_text, Hc. unfold received.
  destruct Hv as (ty & -> & _).
  destruct (data p) as [|[|c' s]|b]; reflexivity.
Qed.

(** X3: for a packet of a valid type, whatever its data, decoding what
    [encodePacket] produces gives the type back, and the data as the
    string [String(data)]: no data field for no data or the empty string,
    and the string [[object ArrayBuffer]] for a binary chunk. *)
Theorem decodePacket_encodePacket (utf8 : Utf8) (bt : option string) (p : packet)
    (supportsBinary : bool) :
  valid_type p ->
  encodePacket utf8 p supportsBinary false (fun wire => decodePacket utf8 wire bt false)
  = Normal (received p).
Proof. exact (decode_encoded utf8 bt p supportsBinary). Qed.

(** X4: the same holds with the text codec asked for on both sides,
    when the decoder brings back what the encoder made behind a leading
    digit, and leaves a single digit as it is: [encodePacket] encodes the
    data alone and [decodePacket] decodes the whole string. *)
Theorem decodePacket_encodePacket_utf8 (utf8 : Utf8) (bt : option string) (p : packet)
    (supportsBinary : bool) :
  (forall c s, is_decimal_digit c = true ->
               utf8_decode utf8 (String c (utf8_encode utf8 s)) = Normal (String c s)) ->
  (forall c, is_decimal_digit c = true ->
             utf8_decode utf8 (String c "") = Normal (String c "")) ->
  valid_type p ->
  encodePacket utf8 p supportsBinary true (fun wire => decodePacket utf8 wire bt true)
  = Normal (received p).
Proof.
  intros H1 H2 Hv.
  pose proof (decode_encoded utf8 bt p supportsBinary Hv) as R.
  destruct (type_code_digit p Hv) as (c & Hc & Dc & Ec).
  unfold encodePacket in *. rewrite Ec in *.
  destruct (data p) as [|s|b]; cbn [append String_of] in *;
    rewrite decodePacket_utf8, ?H1, ?H2 by assumption; exact R.
Qed.

(** A key that is none of the seven names is no property of [packets]
    itself. *)
Lemma not_listed_not_own (key : string) :
  ~ In key packetslist -> get_own_property packets key = None.
Proof.
  intros H. unfold packets. cbn [get_own_property].
  repeat match goal with
         | |- context [String.eqb ?k key] =>
             destruct (String.eqb_spec k key) as [<-|]
         end; try reflexivity; exfalso; apply H; simpl; tauto.
Qed.

(** What [String] makes of a member of [Object.prototype] starts with no
    digit. *)
Lemma String_of_member_head (member : string) :
  exists c rest, String_of_member member = String c rest
                 /\ type_of_digit c = None.
Proof.
  unfold String_of_member. destruct (member =? "__proto__")%string.
  - exists "["%char. eexists. split; reflexivity.
  - exists "f"%char. eexists. split; reflexivity.
Qed.

(** X5: for a packet whose type is none of the seven names of the
    table, [encodePacket] does not fail, and [decodePacket] returns the
    error packet for the string it produces.  That string starts with
    [undefined], unless the type names a member of [Object.prototype],
    such as [toString], which the read [packets[packet.type]] finds: then
    it starts with the text of that member. *)
Theorem encodePacket_unknown_type_is_err (utf8 : Utf8) (bt : option string)
    (p : packet) (supportsBinary utf8encode : bool) :
  ~ In (property_key (type p)) packetslist ->
  encodePacket utf8 p supportsBinary utf8encode
    (fun wire => decodePacket utf8 wire bt false)
  = Normal err
  /\ exists rest,
       encodePacket utf8 p supportsBinary utf8encode (fun wire => wire)
       = Text ((if existsb (String.eqb (property_key (type p))) object_prototype
                then String_of_member (property_key (type p))
                else "undefined") ++ rest).
Proof.
  intros H. unfold encodePacket, get_property.
  rewrite (not_listed_not_own _ H).
  destruct (existsb (String.eqb (property_key (type p))) object_prototype);
    cbn [String_of_code].
  - destruct (String_of_member_head (property_key (type p))) as (c & r & E & Hc).
    rewrite E. split.
    + destruct (data p); cbn [append]; rewrite decodePacket_text, Hc; reflexivity.
    + destruct (data p); cbn [append]; eexists;
        first [reflexivity | now rewrite append_empty_r].
  - split.
    + destruct (data p); cbn [append]; rewrite decodePacket_text; reflexivity.
    + destruct (data p); cbn [append]; eexists;
        first [reflexivity | now rewrite append_empty_r].
Qed.

Lemma encoded_decodable (utf8 : Utf8) (p : packet) :
  valid_type p ->
  encoded utf8 p <> ""
  /\ decode_fails utf8 (Text (encoded utf8 p)) false = false
  /\ forall bt, packet_of_text utf8 bt (encoded utf8 p) = received p.
Proof.
  intros Hv.
  pose proof (fun bt => decode_encoded utf8 bt p false Hv) as R.
  destruct (encoded_valid utf8 p Hv) as (c & Hc & E).
  destruct Hv as (ty & Hty & _).
  split; [rewrite E; discriminate|]. split.
  - rewrite E. unfold decode_fails.
    change (charAt (String c _) 0) with (String c "").
    now rewrite type_of_leading_digit, Hc, Hty.
  - intros bt. unfold packet_of_text. specialize (R bt).
    rewrite encodePacket_encoded in R. now rewrite R.
Qed.

Lemma frame_calls_encoded (utf8 : Utf8) (bt : option string) (l : nat) :
  forall ps pos,
    Forall valid_type ps ->
    List.map call_packet (frame_calls utf8 bt l (List.map (encoded utf8) ps) pos)
    = List.map received ps
    /\ Forall (fun c => call_total c = l /\ call_returned c = ReturnedOther)
         (frame_calls utf8 bt l (List.map (encoded utf8) ps) pos).
Proof.
  induction ps as [|p ps IH]; intros pos Hv; [split; constructor|].
  inversion Hv as [|? ? Hp Hps]; subst.
  destruct (encoded_decodable utf8 p Hp) as (Hne & _ & Hr).
  cbn [List.map frame_calls].
  destruct (String.length (encoded utf8 p) =? 0)%nat eqn:Z.
  { apply Nat.eqb_eq in Z. destruct (encoded utf8 p); [contradiction | discriminate Z]. }
  destruct (IH (pos + String.length (frame (encoded utf8 p))) Hps) as [IH1 IH2].
  split.
  - cbn [List.map call_packet]. now rewrite Hr, IH1.
  - constructor; [split; reflexivity | exact IH2].
Qed.

(** X14: for packets of valid types, one at least, whose encoded forms
    are shorter than 2^53, [decodePayload] of the stream [encodePayload]
    produces, with a callback that never returns [false], calls the
    callback with the packets as received, in their order, each with the
    length of the stream as total. *)
Theorem decodePayload_encodePayload (utf8 : Utf8) (W : Type)
    (cb : packet -> nat -> nat -> W -> W * returned) (bt : option string)
    (supportsBinary : bool) (ps : list packet) (w : W) :
  ps <> [] ->
  Forall valid_type ps ->
  Forall (fun p => small (encoded utf8 p)) ps ->
  never_false cb ->
  exists stream log,
    encodePayload utf8 ps supportsBinary deliver [] = Normal [stream]
    /\ calls utf8 cb (Text stream) bt w = Some log
    /\ List.map call_packet log = List.map received ps
    /\ Forall (fun c => call_total c = String.length stream) log.
Proof.
  intros Hne Hv Hs Hcb.
  exists (frames (List.map (encoded utf8) ps)).
  exists (frame_calls utf8 bt (String.length (frames (List.map (encoded utf8) ps)))
            (List.map (encoded utf8) ps) 0).
  split.
  { rewrite encodePayload_stream. destruct ps; [contradiction | reflexivity]. }
  assert (Hl : 0 < String.length (frames (List.map (encoded utf8) ps) ++ "")).
  { destruct ps as [|p ps]; [contradiction|]. cbn [List.map frames].
    rewrite !length_append, frame_length. lia. }
  pose proof (calls_of_frames utf8 cb bt (List.map (encoded utf8) ps) "" w Hcb)
    as D.
  rewrite append_empty_r, app_nil_r in D. cbn [String.eqb] in D.
  rewrite append_empty_r in Hl.
  destruct (frame_calls_encoded utf8 bt
              (String.length (frames (List.map (encoded utf8) ps))) ps 0 Hv) as [F1 F2].
  split; [|split].
  - apply D; try assumption; try reflexivity.
    + apply Forall_map. exact Hs.
    + apply Forall_map. apply Forall_impl with (2 := Hv).
      intros p Hp. right. apply (encoded_decodable utf8 p Hp).
  - exact F1.
  - apply Forall_impl with (2 := F2). intros c [Hc _]. exact Hc.
Qed.

(** A name has the code at which it stands in the list. *)
Lemma name_of_code (ty : string) (n : nat) :
  get_property packets ty = Own n <-> nth_error packetslist n = Some ty.
Proof.
  split.
  - unfold get_property, packets. cbn [get_own_property].
    repeat match goal with
           | |- context [String.eqb ?k ty] =>
               destruct (String.eqb_spec k ty) as [<-|]
           end; intros H; try (inversion H; reflexivity).
    destruct (existsb (String.eqb ty) object_prototype); discriminate H.
  - intros H.
    do 7 (destruct n as [|n]; [inversion H; reflexivity|]).
    destruct n; discriminate H.
Qed.

(** X6: the tables [packets] and [packetslist] are inverse to each
    other: a name has the code [n] exactly when it stands at [n] in the
    list. *)
Theorem packets_packetslist (ty : string) (n : nat) :
  get_property packets ty = Own n <-> nth_error packetslist n = Some ty.
Proof. exact (name_of_code ty n). Qed.

(** X7: from a binary chunk [decodePacket] never returns the error
    packet: the data are the bytes after the first, and the type is the
    name whose code is the first byte, undefined when there is no such
    name or no byte. *)
Theorem decodePacket_binary (utf8 : Utf8) (bt : option string) (utf8decode : bool)
    (b : list Byte.byte) :
  exists p,
    decodePacket utf8 (Binary b) bt utf8decode = Normal p
    /\ p <> err
    /\ data p = Binary (tl b)
    /\ forall ty,
         type p = Some ty
         <-> exists code, hd_error b = Some code
                          /\ get_property packets ty = Own (Byte.to_nat code).
Proof.
  eexists. split; [reflexivity|]. split; [discriminate|]. split.
  - cbn [data sliceBuffer]. destruct b; reflexivity.
  - intros ty. cbn [type]. destruct b as [|code b]; cbn [hd_error option_map].
    + split; [discriminate|]. intros (code & H & _). discriminate H.
    + rewrite <- name_of_code. split.
      * intros H. exists code. split; [reflexivity | exact H].
      * intros (code' & H & G). inversion H; subst. exact G.
Qed.

(** ** The properties at given inputs *)

Ltac small_all := repeat constructor; vm_compute; reflexivity.
Ltac decodable_all := repeat constructor; first [left; reflexivity | right; vm_compute; reflexivity].

Lemma map_in_order_witness :
  map ["a"; "b"; "c"] shout keep [] = Normal [Some "a!"; Some "b!"; Some "c!"].
Proof.
  apply (map_in_order shout (fun el => el ++ "!") (fun el k st => eq_refl) keep
           ["a"; "b"; "c"] []).
  discriminate.
Defined.

Lemma decodePacket_encodePacket_witness :
  encodePacket ascii_utf8 {| type := Some "ping"; data := Undefined |} true false
    (fun wire => decodePacket ascii_utf8 wire None false)
  = Normal {| type := Some "ping"; data := Undefined |}
  /\ encodePacket ascii_utf8
       {| type := Some "message"; data := Binary [Byte.x01; Byte.x02] |} true false
       (fun wire => decodePacket ascii_utf8 wire None false)
     = Normal {| type := Some "message"; data := Text "[object ArrayBuffer]" |}.
Proof.
  split.
  - apply (decodePacket_encodePacket ascii_utf8 None
             {| type := Some "ping"; data := Undefined |} true).
    exists "ping". split; [reflexivity | simpl; tauto].
  - apply (decodePacket_encodePacket ascii_utf8 None
             {| type := Some "message"; data := Binary [Byte.x01; Byte.x02] |} true).
    exists "message". split; [reflexivity | simpl; tauto].
Defined.

Lemma decodePacket_encodePacket_utf8_witness :
  encodePacket ascii_utf8 {| type := Some "message"; data := Text "hello" |} false true
    (fun wire => decodePacket ascii_utf8 wire None true)
  = Normal {| type := Some "message"; data := Text "hello" |}.
Proof.
  apply (decodePacket_encodePacket_utf8 ascii_utf8 None
           {| type := Some "message"; data := Text "hello" |} false).
  - intros c s _. reflexivity.
  - intros c _. reflexivity.
  - exists "message". split; [reflexivity | simpl; tauto].
Defined.

Lemma encodePacket_unknown_type_is_err_witness :
  (encodePacket ascii_utf8 {| type := Some "bogus"; data := Text "x" |} false false
     (fun wire => decodePacket ascii_utf8 wire None false)
   = Normal err
   /\ exists rest,
        encodePacket ascii_utf8 {| type := Some "bogus"; data := Text "x" |}
          false false (fun wire => wire)
        = Text ("undefined" ++ rest))
  /\ (encodePacket ascii_utf8 {| type := Some "toString"; data := Text "x" |}
        false false (fun wire => decodePacket ascii_utf8 wire None false)
      = Normal err
      /\ exists rest,
           encodePacket ascii_utf8 {| type := Some "toString"; data := Text "x" |}
             false false (fun wire => wire)
           = Text ("function toString() { [native code] }" ++ rest)).
Proof.
  split.
  - apply (encodePacket_unknown_type_is_err ascii_utf8 None
             {| type := Some "bogus"; data := Text "x" |} false false).
    simpl. intros H. decompose [or] H; try discriminate; assumption.
  - apply (encodePacket_unknown_type_is_err ascii_utf8 None
             {| type := Some "toString"; data := Text "x" |} false false).
    simpl. intros H. decompose [or] H; try discriminate; assumption.
Defined.

Lemma decodePayload_frames_witness :
  decodePayload ascii_utf8 refuse (Text (frames [""; "4a"; "4b"] ++ "")) None tt
  = Some (Normal (run_frames ascii_utf8 refuse None
                    (String.length (frames [""; "4a"; "4b"] ++ "")) [""; "4a"; "4b"] 0
                    (fun w' => w') tt)).
Proof.
  apply (decodePayload_frames ascii_utf8 refuse None [""; "4a"; "4b"] "" tt).
  - small_all.
  - reflexivity.
  - apply Nat.ltb_lt. vm_compute. reflexivity.
Defined.

Lemma decodePayload_frames_calls_witness :
  calls ascii_utf8 accept (Text "2:4a0:1:2") None tt
  = Some [ Call {| type := Some "message"; data := Text "a" |} 3 9 ReturnedOther;
           Call {| type := Some "ping"; data := Undefined |} 8 9 ReturnedOther ]
  /\ calls ascii_utf8 accept (Text "2:4a12") None tt
     = Some [ Call {| type := Some "message"; data := Text "a" |} 3 6 ReturnedOther;
              err_call ].
Proof.
  split.
  - apply (decodePayload_frames_calls ascii_utf8 accept None ["4a"; ""; "2"] "" tt).
    + intros p i t w. reflexivity.
    + small_all.
    + decodable_all.
    + reflexivity.
    + apply Nat.ltb_lt. vm_compute. reflexivity.
  - apply (decodePayload_frames_calls ascii_utf8 accept None ["4a"] "12" tt).
    + intros p i t w. reflexivity.
    + small_all.
    + decodable_all.
    + reflexivity.
    + apply Nat.ltb_lt. vm_compute. reflexivity.
Defined.

Lemma decodePayload_bad_packet_aborts_witness :
  calls ascii_utf8 accept (Text "2:4a1:x2:4b") None tt
  = Some [ Call {| type := Some "message"; data := Text "a" |} 3 11 ReturnedOther;
           err_call ].
Proof.
  apply (decodePayload_bad_packet_aborts ascii_utf8 accept None ["4a"] "x" "2:4b" tt).
  - intros p i t w. reflexivity.
  - small_all.
  - vm_compute. reflexivity.
  - decodable_all.
  - discriminate.
  - vm_compute. reflexivity.
Defined.

Lemma decodePayload_truncated_frame_witness :
  calls ascii_utf8 accept (Text "2:4a5:4b") None tt
  = Some [ Call {| type := Some "message"; data := Text "a" |} 3 8 ReturnedOther;
           err_call ].
Proof.
  apply (decodePayload_truncated_frame ascii_utf8 accept None ["4a"] 5 "4b" tt).
  - intros p i t w. reflexivity.
  - small_all.
  - decodable_all.
  - simpl. lia.
  - vm_compute. reflexivity.
Defined.

Lemma decodePayload_false_hides_rest_witness :
  calls ascii_utf8 refuse (Text "2:4a?:?") None tt
  = Some [Call {| type := Some "message"; data := Text "a" |} 3 7 ReturnedFalse].
Proof.
  apply (decodePayload_false_hides_rest ascii_utf8 unit refuse None "4a" "?:?" tt).
  - vm_compute. reflexivity.
  - discriminate.
  - vm_compute. reflexivity.
  - reflexivity.
Defined.

Lemma decodePayload_last_index_witness :
  exists log total,
    total = String.length (frames (["4a"; ""] ++ ["2"]))
    /\ calls ascii_utf8 accept (Text (frames (["4a"; ""] ++ ["2"]))) None tt
       = Some (log ++ [Call (packet_of_text ascii_utf8 None "2") (total - 1) total
                         ReturnedOther])%list
    /\ Forall (fun c => call_index c + 1 < total) log.
Proof.
  apply (decodePayload_last_index ascii_utf8 unit accept None ["4a"; ""] "2" tt).
  - intros p i t w. reflexivity.
  - small_all.
  - decodable_all.
  - discriminate.
Defined.

Lemma decodePayload_encodePayload_witness :
  exists stream log,
    encodePayload ascii_utf8 [hello_world; hi] false deliver [] = Normal [stream]
    /\ calls ascii_utf8 accept (Text stream) None tt = Some log
    /\ List.map call_packet log = List.map received [hello_world; hi]
    /\ Forall (fun c => call_total c = String.length stream) log.
Proof.
  apply (decodePayload_encodePayload ascii_utf8 unit accept None false
           [hello_world; hi] tt).
  - discriminate.
  - repeat (constructor; [exists "message"; split; [reflexivity | simpl; tauto]|]).
    constructor.
  - small_all.
  - intros p i t w. reflexivity.
Defined.

(** ** Streams as the scanner takes them *)


Lemma number_of_nat_form (k : nat) :
  (Z.of_nat k < 2 ^ 53)%Z ->
  number_of_nat k = S754_zero false
  \/ exists m e, number_of_nat k = S754_finite false m e.
Proof.
  intros H. unfold number_of_nat. destruct k as [|k]; [now left|].
  change (Z.of_nat (S k)) with (Zpos (Pos.of_succ_nat k)) in *.
  destruct (number_of_pos _ H) as (mz & ez & E & _). right. eauto.
Qed.

(** A number equal to a natural number below 2^53. *)
Lemma num_eq_natural (x : number) (k bound : nat) :
  (Z.of_nat k < 2 ^ 53)%Z ->
  num_eq x (number_of_nat k) = true ->
  integer_part x = k /\ to_index bound x = Nat.min bound k
  /\ isNaN x = false /\ is_natural x = true.
Proof.
  intros Hk E.
  assert (I : integer_part x = k).
  { rewrite (num_eq_integer_part _ _ E). now apply integer_part_of_nat. }
  split; [exact I|]. split; [|split].
  - unfold to_index. rewrite I.
    destruct x as [s|[]| |s m e]; try reflexivity.
    exfalso. unfold num_eq, SFeqb in E.
    destruct (number_of_nat_form k Hk) as [F|(m & e & F)]; rewrite F in E;
      discriminate E.
  - destruct x; try reflexivity. discriminate E.
  - unfold is_natural. now rewrite I.
Qed.

Lemma substring_length_le (s : string) : forall n m,
  String.length (String.substring n m s) <= String.length s.
Proof.
  induction s as [|c s IH]; intros n m.
  - destruct n, m; simpl; lia.
  - destruct n; simpl.
    + destruct m; simpl; [lia|]. specialize (IH 0 m). lia.
    + specialize (IH n m). lia.
Qed.

Lemma substring_skip (pre rest : string) (k : nat) :
  String.substring (String.length pre) k (pre ++ rest) = String.substring 0 k rest.
Proof. induction pre as [|c pre IH]; simpl; [reflexivity | exact IH]. Qed.

Lemma substring_head (rest : string) : forall k,
  exists tail, rest = String.substring 0 k rest ++ tail
               /\ String.length (String.substring 0 k rest) = Nat.min k (String.length rest).
Proof.
  induction rest as [|c rest IH]; intros k.
  - exists "". destruct k; split; reflexivity.
  - destruct k; simpl.
    + exists (String c rest). split; reflexivity.
    + destruct (IH k) as (tail & E & L). exists tail. split.
      * simpl. now rewrite <- E.
      * simpl. now rewrite L.
Qed.

Lemma append_same_length (a b c d : string) :
  a ++ b = c ++ d -> String.length a = String.length c -> a = c /\ b = d.
Proof.
  revert c. induction a as [|x a IH]; intros [|y c] H L; simpl in *; try discriminate.
  - now split.
  - injection H as -> H. injection L as L. destruct (IH c H L) as [-> ->]. now split.
Qed.

Lemma has_colon_app (a b : string) : has_colon (a ++ b) = has_colon a || has_colon b.
Proof. induction a as [|c a IH]; simpl; [reflexivity | now rewrite IH, orb_assoc]. Qed.

(** A string with a delimiter, cut at its first one. *)
Lemma first_colon (s : string) :
  has_colon s = true ->
  exists prefix rest, s = prefix ++ String ":" rest /\ has_colon prefix = false.
Proof.
  induction s as [|c s IH]; simpl; [discriminate|].
  destruct (Ascii.eqb_spec c ":") as [->|Hc]; simpl.
  - intros _. exists "", s. split; reflexivity.
  - intros H. destruct (IH H) as (p & r & -> & Hp).
    exists (String c p), r. split; [reflexivity|]. simpl.
    destruct (Ascii.eqb_spec c ":"); [contradiction | exact Hp].
Qed.

Lemma first_colon_unique (p1 r1 p2 r2 : string) :
  p1 ++ String ":" r1 = p2 ++ String ":" r2 ->
  has_colon p1 = false -> has_colon p2 = false ->
  p1 = p2 /\ r1 = r2.
Proof.
  revert p2. induction p1 as [|c p1 IH]; intros [|d p2] H H1 H2; simpl in *.
  - injection H as ->. now split.
  - injection H as <- _. rewrite Ascii.eqb_refl in H2. discriminate H2.
  - injection H as -> _. rewrite Ascii.eqb_refl in H1. discriminate H1.
  - injection H as -> H. apply orb_false_elim in H1, H2.
    destruct (IH p2 H (proj2 H1) (proj2 H2)) as [-> ->]. now split.
Qed.

Section Delimiter.

Variable utf8 : Utf8.
Context {W : Type}.
Variable cb : packet -> nat -> nat -> W -> W * returned.

(** The loop from the beginning of a length prefix to the frame behind its delimiter. *)
Lemma scan_prefix_frame (data : string) (bt : option string) (pre prefix rest : string)
    (fuel : nat) (w : W) :
  data = pre ++ prefix ++ String ":" rest ->
  has_colon prefix = false ->
  scan utf8 cb (String.length prefix + S fuel) data bt (String.length data)
    (String.length pre) "" w
  = let n := Number prefix in
    let i := String.length pre + String.length prefix in
    let msg := String.substring 0 (to_index (String.length data) n) rest in
    if (prefix =? "")%string || isNaN n then Some (Normal (fst (cb err 0 1 w)))
    else if negb (num_eq n (number_of_nat (String.length msg)))
    then Some (Normal (fst (cb err 0 1 w)))
    else if (0 <? String.length msg)%nat then
      match decodePacket utf8 (Text msg) bt false with
      | Throw e => Some (Throw e)
      | Normal p =>
          if same_as_err p then Some (Normal (fst (cb err 0 1 w)))
          else
            let '(w', ret) := cb p (index_plus i n) (String.length data) w in
            match ret with
            | ReturnedFalse => Some (Normal w')
            | ReturnedOther =>
                scan utf8 cb fuel data bt (String.length data) (index_plus i n + 1) "" w'
            end
      end
    else scan utf8 cb fuel data bt (String.length data) (index_plus i n + 1) "" w.
Proof.
  intros Hd Hc.
  rewrite (scan_gathers utf8 cb data bt (String ":" rest) (S fuel) w prefix pre "" Hc Hd).
  change ("" ++ prefix) with prefix.
  assert (Hl : String.length data
               = String.length pre + String.length prefix + 1 + String.length rest).
  { rewrite Hd, !length_append. simpl. lia. }
  cbn [scan]. cbv zeta.
  assert (L : (String.length pre + String.length prefix <? String.length data)%nat = true).
  { apply Nat.ltb_lt. lia. }
  rewrite L.
  assert (C : charAt data (String.length pre + String.length prefix) = ":").
  { rewrite Hd, <- length_append, <- append_assoc. apply charAt_append. }
  rewrite C. change (negb (":" =? ":")%string) with false. cbv iota.
  rewrite length_test.
  assert (M : forall x, substr data (String.length pre + String.length prefix + 1) x
                        = String.substring 0 (to_index (String.length data) x) rest).
  { intros x. unfold substr. rewrite Hd at 2.
    replace (String.length pre + String.length prefix + 1)
      with (String.length ((pre ++ prefix) ++ ":")) by (rewrite !length_append; simpl; lia).
    replace (pre ++ prefix ++ String ":" rest) with (((pre ++ prefix) ++ ":") ++ rest)
      by (rewrite !append_assoc; reflexivity).
    apply substring_skip. }
  rewrite M. unfold loose_neq_string_number, loose_eq_string_number.
  reflexivity.
Qed.

End Delimiter.


Section Framed.

Variable utf8 : Utf8.
Context {W : Type}.
Variable cb : packet -> nat -> nat -> W -> W * returned.
Variable bt : option string.

Lemma framed_no_colon (s : string) :
  has_colon s = false -> framed utf8 s -> s = "".
Proof.
  intros Hc F. destruct F as [|prefix m rest _ _ _ _ _]; [reflexivity|].
  rewrite has_colon_app in Hc. simpl in Hc. rewrite orb_true_r in Hc. discriminate Hc.
Qed.

(** What a framed stream is behind its first delimiter. *)
Lemma framed_inv (prefix rest : string) :
  has_colon prefix = false ->
  framed utf8 (prefix ++ String ":" rest) ->
  prefix <> ""
  /\ exists m tail,
       rest = m ++ tail
       /\ num_eq (Number prefix) (number_of_nat (String.length m)) = true
       /\ decodable utf8 m /\ framed utf8 tail.
Proof.
  intros Hc F. inversion F as [E|p m tail Hp Hne Hn Hd Ht E].
  - destruct prefix; discriminate E.
  - change (p ++ ":" ++ m ++ tail) with (p ++ String ":" (m ++ tail)) in E.
    destruct (first_colon_unique _ _ _ _ E Hp Hc) as [-> <-].
    split; [exact Hne|]. exists m, tail. auto.
Qed.


Lemma outcome_error (s : string) (r : returned) :
  ~ framed utf8 s -> outcome utf8 s [Call err 0 1 r].
Proof.
  intros H. split; [intros F; contradiction|]. intros _.
  exists [], (Call err 0 1 r). split; [reflexivity|]. split; [constructor|].
  left. repeat split.
Qed.

Lemma cut_short_cons (c : call) (log : list call) :
  packet_call c -> cut_short log -> cut_short (c :: log).
Proof.
  intros Hc (before & c' & -> & Hb & H). exists (c :: before), c'.
  split; [reflexivity|]. split; [constructor; assumption | exact H].
Qed.

Lemma logged_call (p : packet) (i t : nat) (log : list call) (w : W) :
  logged cb p i t (log, w)
  = ((log ++ [Call p i t (snd (cb p i t w))])%list, fst (cb p i t w), snd (cb p i t w)).
Proof. unfold logged. simpl. destruct (cb p i t w); reflexivity. Qed.

(** From a frame boundary on, the logged run adds to the log what the rest of the stream asks for. *)
Lemma scan_outcome (data : string) :
  small data ->
  forall k s pre log w,
    String.length s <= k ->
    data = pre ++ s ->
    exists fuel st added,
      scan utf8 (logged cb) fuel data bt (String.length data) (String.length pre) ""
        (log, w) = Some (Normal st)
      /\ fst st = (log ++ added)%list
      /\ outcome utf8 s added.
Proof.
  intros Hsmall. induction k as [|k IH]; intros s pre log w Hk Hd.
  - (* nothing left *)
    destruct s; [|simpl in Hk; lia].
    destruct (scan_tail utf8 (logged cb) data bt pre "" (log, w) Hd eq_refl) as [fuel Hf].
    exists fuel, (log, w), []. split; [exact Hf|]. split; [now rewrite app_nil_r|].
    split; [constructor|]. intros H. exfalso. apply H. constructor.
  - destruct (has_colon s) eqn:Hc.
    2: { (* no delimiter left *)
      destruct (scan_tail utf8 (logged cb) data bt pre s (log, w) Hd Hc) as [fuel Hf].
      destruct (s =? "")%string eqn:E.
      - apply String.eqb_eq in E. subst s.
        exists fuel, (log, w), []. split; [exact Hf|]. split; [now rewrite app_nil_r|].
        split; [constructor|]. intros H. exfalso. apply H. constructor.
      - apply String.eqb_neq in E.
        exists fuel, (fst (logged cb err 0 1 (log, w))), [Call err 0 1 (snd (cb err 0 1 w))].
        split; [exact Hf|]. split; [now rewrite logged_call|].
        apply outcome_error. intros F. apply E. now apply framed_no_colon. }
    destruct (first_colon s Hc) as (prefix & rest & -> & Hp).
    assert (Hd' : data = pre ++ prefix ++ String ":" rest) by exact Hd.
    pose proof (fun fuel => scan_prefix_frame utf8 (logged cb) data bt pre prefix rest fuel
                              (log, w) Hd' Hp) as Step.
    cbv zeta in Step.
    set (n := Number prefix) in *.
    set (msg := String.substring 0 (to_index (String.length data) n) rest) in *.
    assert (Hmsg : String.length msg <= String.length rest)
      by apply substring_length_le.
    assert (Hdl : String.length data
                  = String.length pre + String.length prefix + 1 + String.length rest).
    { rewrite Hd', !length_append. simpl. lia. }
    assert (Smsg : (Z.of_nat (String.length msg) < 2 ^ 53)%Z).
    { unfold small in Hsmall. lia. }
    destruct ((prefix =? "")%string || isNaN n) eqn:G1.
    { (* no number *)
      exists (String.length prefix + 1), (fst (logged cb err 0 1 (log, w))),
        [Call err 0 1 (snd (cb err 0 1 w))].
      split; [apply Step|]. split; [now rewrite logged_call|].
      apply outcome_error. intros F.
      destruct (framed_inv prefix rest Hp F) as (Hne & m & tail & _ & Hn & _).
      apply orb_true_iff in G1. destruct G1 as [G1|G1].
      - apply String.eqb_eq in G1. contradiction.
      - fold n in Hn. destruct n; try discriminate G1. discriminate Hn. }
    apply orb_false_iff in G1. destruct G1 as [G1 G1'].
    destruct (num_eq n (number_of_nat (String.length msg))) eqn:G2; cbn [negb] in Step.
    2: { (* the length does not fit *)
      exists (String.length prefix + 1), (fst (logged cb err 0 1 (log, w))),
        [Call err 0 1 (snd (cb err 0 1 w))].
      split; [apply Step|]. split; [now rewrite logged_call|].
      apply outcome_error. intros F.
      destruct (framed_inv prefix rest Hp F) as (Hne & m & tail & Hr & Hn & _).
      fold n in Hn.
      assert (Sm : (Z.of_nat (String.length m) < 2 ^ 53)%Z).
      { unfold small in Hsmall. rewrite Hdl, Hr, length_append in Hsmall. lia. }
      destruct (num_eq_natural n _ (String.length data) Sm Hn) as (_ & Ti & _).
      assert (msg = m).
      { unfold msg. rewrite Ti, Hr.
        replace (Nat.min (String.length data) (String.length m)) with (String.length m)
          by (rewrite Hdl, Hr, length_append; lia).
        apply (substring_append "" m tail). }
      subst m. rewrite Hn in G2. discriminate G2. }
    (* the frame is there *)
    destruct (num_eq_natural n _ (String.length data) Smsg G2) as (Ip & Ti & _).
    destruct (substring_head rest (to_index (String.length data) n)) as (tail & Hr & _).
    fold msg in Hr.
    assert (Hnext : index_plus (String.length pre + String.length prefix) n + 1
                    = String.length (pre ++ prefix ++ String ":" msg)).
    { unfold index_plus. rewrite Ip, !length_append. simpl. lia. }
    rewrite Hnext in Step.
    assert (Hd'' : data = (pre ++ prefix ++ String ":" msg) ++ tail).
    { rewrite !append_assoc. cbn [append]. rewrite <- Hr. exact Hd'. }
    assert (Hk' : String.length tail <= k).
    { simpl in Hk. rewrite length_append in Hk. simpl in Hk.
      rewrite Hr, length_append in Hk. lia. }
    assert (Fr : framed utf8 (prefix ++ String ":" rest)
                 <-> decodable utf8 msg /\ framed utf8 tail).
    { split.
      - intros F. destruct (framed_inv prefix rest Hp F) as (_ & m & tl & Hr' & Hn & Dm & Ft).
        fold n in Hn.
        assert (Sm : (Z.of_nat (String.length m) < 2 ^ 53)%Z).
        { unfold small in Hsmall. rewrite Hdl, Hr', length_append in Hsmall. lia. }
        destruct (num_eq_natural n _ 0 Sm Hn) as (Ip' & _).
        rewrite Hr in Hr'.
        destruct (append_same_length _ _ _ _ Hr') as [<- <-]; [lia|]. now split.
      - intros [Dm Ft]. rewrite Hr.
        apply (framed_frame utf8 prefix msg tail Hp); try assumption.
        apply String.eqb_neq. exact G1. }
    destruct (0 <? String.length msg)%nat eqn:G3.
    2: { (* an empty frame *)
      destruct (IH tail (pre ++ prefix ++ String ":" msg) log w Hk' Hd'')
        as (fuel & st & added & Hf & Hst & [O1 O2]).
      exists (String.length prefix + S fuel), st, added.
      split; [rewrite Step; exact Hf|]. split; [exact Hst|].
      assert (Dm : decodable utf8 msg).
      { left. apply Nat.ltb_ge in G3. destruct msg; [reflexivity | simpl in G3; lia]. }
      split.
      - intros F. apply O1. now apply Fr.
      - intros F. apply O2. intros Ft. apply F. apply Fr. now split. }
    destruct (decodePacket_fails_or_not utf8 (Text msg) bt false) as (p & Hp' & Hq).
    rewrite Hp' in Step.
    assert (Mne : msg <> "").
    { apply Nat.ltb_lt in G3. intros E. rewrite E in G3. simpl in G3. lia. }
    destruct (decode_fails utf8 (Text msg) false) eqn:Df.
    { (* a frame that is no packet *)
      subst p. cbn [same_as_err] in Step.
      exists (String.length prefix + 1), (fst (logged cb err 0 1 (log, w))),
        [Call err 0 1 (snd (cb err 0 1 w))].
      split; [apply Step|]. split; [now rewrite logged_call|].
      apply outcome_error. intros F. apply Fr in F. destruct F as [[E|E] _].
      - contradiction.
      - rewrite Df in E. discriminate E. }
    destruct Hq as [Hq _]. rewrite Hq in Step.
    assert (Pc : p <> err) by (apply same_as_err_false_neq; exact Hq).
    assert (Dm : decodable utf8 msg) by (right; exact Df).
    rewrite logged_call in Step.
    set (i := index_plus (String.length pre + String.length prefix) n) in *.
    destruct (snd (cb p i (String.length data) w)) eqn:R.
    + (* the callback returns false *)
      eexists (String.length prefix + 1), _, [Call p i (String.length data) ReturnedFalse].
      split; [apply Step|]. split; [reflexivity|]. split.
      * intros _. constructor; [exact Pc | constructor].
      * intros _. exists [], (Call p i (String.length data) ReturnedFalse).
        split; [reflexivity|]. split; [constructor|]. right. split; [exact Pc | reflexivity].
    + destruct (IH tail (pre ++ prefix ++ String ":" msg)
                  (log ++ [Call p i (String.length data) ReturnedOther])%list
                  (fst (cb p i (String.length data) w)) Hk' Hd'')
        as (fuel & st & added & Hf & Hst & [O1 O2]).
      exists (String.length prefix + S fuel), st,
        (Call p i (String.length data) ReturnedOther :: added).
      split; [rewrite Step; exact Hf|].
      split; [rewrite Hst, <- app_assoc; reflexivity|]. split.
      * intros F. constructor; [exact Pc|]. apply O1. now apply Fr.
      * intros F. apply cut_short_cons; [exact Pc|]. apply O2.
        intros Ft. apply F. apply Fr. now split.
Qed.

End Framed.


Section Outcome.

Variable utf8 : Utf8.
Context {W : Type}.
Variable cb : packet -> nat -> nat -> W -> W * returned.
Variable bt : option string.

(** The calls of a run on a string: packets only when the string is frames
    from end to end, and else packets closed by the error call, or by a
    packet call that returned [false]. *)
Lemma calls_outcome (s : string) (w : W) :
  small s ->
  exists log,
    calls utf8 cb (Text s) bt w = Some log
    /\ (well_framed utf8 s -> Forall packet_call log)
    /\ (~ well_framed utf8 s -> cut_short log).
Proof.
  intros Hs. destruct s as [|c s].
  - exists [Call err 0 1 (snd (cb err 0 1 w))]. split.
    + unfold calls, decodePayload. rewrite logged_call. reflexivity.
    + split; [intros [H _]; contradiction|]. intros _.
      exists [], (Call err 0 1 (snd (cb err 0 1 w))).
      split; [reflexivity|]. split; [constructor|]. left. repeat split.
  - destruct (scan_outcome utf8 cb bt (String c s) Hs (String.length (String c s))
                (String c s) "" [] w (le_n _) eq_refl)
      as (fuel & st & added & Hf & Hst & [O1 O2]).
    exists added. split.
    + unfold calls.
      assert (Hpos : 0 < String.length (String c s)) by (simpl; lia).
      rewrite (decodePayload_by_scan utf8 (logged cb) (String c s) bt ([], w) _ fuel
                 Hpos Hf).
      exact (f_equal Some Hst).
    + split.
      * intros [_ F]. exact (O1 F).
      * intros H. apply O2. intros F. apply H. split; [discriminate | exact F].
Qed.



End Outcome.

Section Accepts.

Variable utf8 : Utf8.
Context {W : Type}.
Variable cb : packet -> nat -> nat -> W -> W * returned.
Variable bt : option string.


End Accepts.

(** ** What decodePayload does with a malformed stream *)

(** C4, as amended: [decodePacket] does not throw, for a string or for no
    input: it returns a packet, the error packet for no input and when the
    text decoder throws.  [decodePayload] does not throw for a string: the
    run ends and returns.  For a string shorter than 2^53, as the strings
    of JavaScript are, the calls of the run are these: packets only, when
    the string is frames from end to end; and for every other string
    packets closed by one call with the error packet, 0 and 1, unless the
    callback has closed the run before by returning [false]. *)
Theorem decode_never_throws (utf8 : Utf8) (bt : option string) :
  (forall utf8decode, decodePacket utf8 Undefined bt utf8decode = Normal err) /\
  (forall s utf8decode, exists p, decodePacket utf8 (Text s) bt utf8decode = Normal p) /\
  (forall s e, utf8_decode utf8 s = Throw e ->
               decodePacket utf8 (Text s) bt true = Normal err) /\
  (forall (W : Type) (cb : packet -> nat -> nat -> W -> W * returned) s w,
      (exists w', decodePayload utf8 cb (Text s) bt w = Some (Normal w')) /\
      (exists log, calls utf8 cb (Text s) bt w = Some log)) /\
  (forall (W : Type) (cb : packet -> nat -> nat -> W -> W * returned) s w,
      small s ->
      exists log,
        calls utf8 cb (Text s) bt w = Some log
        /\ (well_framed utf8 s -> Forall packet_call log)
        /\ (~ well_framed utf8 s -> cut_short log)).
Proof.
  split; [reflexivity|].
  split; [intros s u; apply decodePacket_returns|].
  split; [|split].
  - intros s e H. rewrite decodePacket_utf8, H. reflexivity.
  - intros W cb s w. split; [apply decodePayload_returns|].
    unfold calls.
    destruct (decodePayload_returns utf8 (logged cb) s bt ([], w)) as [st ->].
    eexists; reflexivity.
  - intros W cb s w Hs. apply calls_outcome. exact Hs.
Qed.

Lemma decode_never_throws_witness :
  decodePacket throwing_utf8 (Text "4hello") None true = Normal err
  /\ (exists log,
        calls ascii_utf8 accept (Text "2:4a7") None tt = Some log
        /\ cut_short log)
  /\ (exists log,
        calls ascii_utf8 accept (Text "5:4a") None tt = Some log
        /\ cut_short log).
Proof.
  pose proof (decode_never_throws throwing_utf8 None) as (_ & _ & H & _).
  split; [apply (H "4hello" (Error "Invalid UTF-8 detected")); reflexivity|].
  pose proof (decode_never_throws ascii_utf8 None) as (_ & _ & _ & _ & G).
  split.
  - destruct (G unit accept "2:4a7" tt) as (log & Hlog & _ & Hbad);
      [vm_compute; reflexivity|].
    exists log. split; [exact Hlog|]. apply Hbad. intros [_ F].
    destruct (framed_inv ascii_utf8 "2" "4a7" eq_refl F)
      as (_ & m & tail & Hr & Hn & _ & Ft).
    assert (L : String.length m = 2).
    { apply num_eq_integer_part in Hn. rewrite integer_part_of_nat in Hn.
      - symmetry. exact Hn.
      - apply (f_equal String.length) in Hr. rewrite length_append in Hr.
        simpl in Hr. unfold Z.lt. destruct (String.length m) as [|[|[|[|?]]]];
          try reflexivity; lia. }
    destruct m as [|c1 [|c2 [|c3 m]]]; try discriminate L.
    injection Hr as _ _ Hr. subst tail.
    apply (framed_no_colon ascii_utf8 "7" eq_refl) in Ft. discriminate Ft.
  - destruct (G unit accept "5:4a" tt) as (log & Hlog & _ & Hbad);
      [vm_compute; reflexivity|].
    exists log. split; [exact Hlog|]. apply Hbad. intros [_ F].
    destruct (framed_inv ascii_utf8 "5" "4a" eq_refl F)
      as (_ & m & tail & Hr & Hn & _).
    assert (L : String.length m <= 2).
    { apply (f_equal String.length) in Hr. rewrite length_append in Hr. simpl in Hr. lia. }
    apply num_eq_integer_part in Hn. rewrite integer_part_of_nat in Hn.
    + assert (N : integer_part (Number "5") = 5) by (vm_compute; reflexivity).
      rewrite N in Hn. lia.
    + unfold Z.lt. destruct (String.length m) as [|[|[|?]]]; try reflexivity; lia.
Defined.


